(** * bmp_to_header: a byte blob rendered as a C++ header

    A shallow embedding of [tools/bmp_to_header.py].  The script reads a
    file as bytes and writes a header with the bytes as hexadecimal
    literals, sixteen per row.

    The embedding follows the script statement by statement:
    - Python integers are [Z]; a [bytes] object is a [list byte];
    - a [str] is a [string]: the bytes the text was given as on the
      command line, or the ASCII characters of a literal; text written to
      a file is encoded as UTF-8 and stored as its bytes;
    - statements live in a state-and-exception monad [SE S], with the
      process world (file system, standard output) or the pending text of
      an open file as the state [S];
    - the file system resolves a path to the file it names and keeps the
      contents per file, so that two spellings of one file share them. *)

From Stdlib Require Import ZArith NArith Lia List.
From Stdlib Require Import Strings.String Strings.Ascii Strings.Byte.
From Stdlib Require Import Numbers.HexadecimalString.
From stdpp Require Import gmap strings list.

#[local] Arguments String.append !s1 s2 : simpl nomatch.

Local Open Scope string_scope.
Local Open Scope Z_scope.

(** ** The Python run time the script relies on *)

Module Py.

(** The exceptions the script can meet.  [IOError] is Python 3's
    [OSError]; [UnicodeEncodeError] is what writing text that the file's
    codec cannot encode raises; [SystemExit] carries the status given to
    [sys.exit]. *)
Inductive exn : Type :=
| IOError
| IndexError
| UnicodeEncodeError
| SystemExit (code : Z).

Inductive result (A : Type) : Type :=
| Ok (a : A)
| Raise (e : exn).
Arguments Ok {A} a.
Arguments Raise {A} e.

(** A statement over a state [S]: it ends normally with a value or
    raises, and in both cases leaves a state behind. *)
Definition SE (S A : Type) : Type := S -> result A * S.

Definition ret {S A} (a : A) : SE S A := fun s => (Ok a, s).

Definition raise {S A} (e : exn) : SE S A := fun s => (Raise e, s).

Definition bind {S A B} (m : SE S A) (k : A -> SE S B) : SE S B :=
  fun s =>
    match m s with
    | (Ok a, s') => k a s'
    | (Raise e, s') => (Raise e, s')
    end.

Definition pass {S} : SE S unit := ret tt.

(** [for x in xs: body x] *)
Fixpoint for_each {S A} (xs : list A) (body : A -> SE S unit) : SE S unit :=
  match xs with
  | [] => pass
  | x :: xs' => bind (body x) (fun _ => for_each xs' body)
  end.

(** [len(range(start, stop, step))] for a positive [step]. *)
Definition range_len (start stop step : Z) : nat :=
  Z.to_nat ((stop - start + step - 1) / step).

(** [range(start, stop, step)] for a positive [step], the only kind the
    script uses. *)
Definition range (start stop step : Z) : list Z :=
  List.map (fun k => start + step * Z.of_nat k)
           (List.seq 0 (range_len start stop step)).

Definition len {A} (xs : list A) : Z := Z.of_nat (List.length xs).

(** [xs[k]]: a negative index counts from the end, an index out of range
    raises [IndexError]. *)
Definition getitem {S A} (xs : list A) (k : Z) : SE S A :=
  let k' := if k <? 0 then k + len xs else k in
  if (0 <=? k') && (k' <? len xs)
  then match nth_error xs (Z.to_nat k') with
       | Some x => ret x
       | None => raise IndexError
       end
  else raise IndexError.

(** The integer a [bytes] object yields at an index. *)
Definition int_of_byte (b : byte) : Z := Z.of_N (Byte.to_N b).

Definition bytes_getitem {S} (data : list byte) (k : Z) : SE S Z :=
  bind (getitem data k) (fun b => ret (int_of_byte b)).

Fixpoint zeros (n : nat) : string :=
  match n with
  | O => ""
  | S n' => String "0" (zeros n')
  end.

(** [format(v, "02x")]: lower-case hexadecimal, the sign first, then
    zeros up to a total width of two. *)
Definition format_02x (v : Z) : string :=
  let sign := if v <? 0 then "-" else "" in
  let digits := NilZero.string_of_uint (N.to_hex_uint (Z.abs_N v)) in
  sign ++ zeros (2 - String.length sign - String.length digits) ++ digits.

(** The line feed, Python's ["\n"]. *)
Definition nl : string := String (ascii_of_nat 10) "".

(** *** Text and its encoding

    A file opened with [open(path, "w")] encodes what is written to it
    with the codec of the locale and the error handler [strict]; the codec
    is taken to be UTF-8, Python's default on POSIX systems.  A [str] that
    came from the command line was decoded from its bytes with
    [surrogateescape]: bytes that are not well-formed UTF-8 became lone
    surrogates, which the strict encoder refuses; everything else encodes
    back to the bytes it came from.  So a text can be written exactly when
    its bytes are well-formed UTF-8.  The script puts an ASCII literal
    before and after each argument it writes, so the bytes of an argument
    never join those of a neighbour into a character. *)

(** Where a UTF-8 decoder stands between two bytes: at a character
    boundary, or inside a character with one, two or three continuation
    bytes to come, the next one possibly restricted by the lead byte. *)
Inductive utf8_state : Type :=
| U_start
| U_tail1
| U_tail2
| U_tail3
| U_after_e0
| U_after_ed
| U_after_f0
| U_after_f4.

Definition in_range (lo hi : N) (c : ascii) : bool :=
  ((lo <=? N_of_ascii c) && (N_of_ascii c <=? hi))%N.

(** One byte of well-formed UTF-8 (the Unicode standard, table 3-7);
    [None] when the byte cannot come next. *)
Definition utf8_step (st : utf8_state) (c : ascii) : option utf8_state :=
  match st with
  | U_start =>
      if in_range 0 127 c then Some U_start
      else if in_range 194 223 c then Some U_tail1
      else if in_range 224 224 c then Some U_after_e0
      else if in_range 237 237 c then Some U_after_ed
      else if in_range 225 239 c then Some U_tail2
      else if in_range 240 240 c then Some U_after_f0
      else if in_range 241 243 c then Some U_tail3
      else if in_range 244 244 c then Some U_after_f4
      else None
  | U_tail1 => if in_range 128 191 c then Some U_start else None
  | U_tail2 => if in_range 128 191 c then Some U_tail1 else None
  | U_tail3 => if in_range 128 191 c then Some U_tail2 else None
  | U_after_e0 => if in_range 160 191 c then Some U_tail1 else None
  | U_after_ed => if in_range 128 159 c then Some U_tail1 else None
  | U_after_f0 => if in_range 144 191 c then Some U_tail2 else None
  | U_after_f4 => if in_range 128 143 c then Some U_tail2 else None
  end.

Fixpoint utf8_run (st : utf8_state) (s : string) : option utf8_state :=
  match s with
  | "" => Some st
  | String c s' =>
      match utf8_step st c with
      | Some st' => utf8_run st' s'
      | None => None
      end
  end.

(** The text can be encoded: its bytes are well-formed UTF-8. *)
Definition encodable (s : string) : bool :=
  match utf8_run U_start s with
  | Some U_start => true
  | _ => false
  end.

(** *** Text files

    The body of [with open(path, "w") as f] runs over the text written
    to [f] so far; [f.write(s)] encodes [s] and appends it, or raises
    [UnicodeEncodeError] and writes nothing of [s]. *)
Definition write (s : string) : SE string unit :=
  fun buf =>
    if encodable s then (Ok tt, buf ++ s)
    else (Raise UnicodeEncodeError, buf).

(** *** The process world *)
Record world : Type := World {
  resolve : string -> string;        (* the file a path names: one name per file *)
  store : gmap string (list byte);   (* the contents of the regular files *)
  denied_r : gset string;            (* paths that cannot be opened for reading *)
  denied_w : gset string;            (* paths that cannot be opened for writing *)
  stdout : string                    (* what has been printed *)
}.

(** The files as paths show them: a path is resolved to the file it
    names, and every path that names the file sees the same contents. *)
Record fileview : Type := FileView {
  view_resolve : string -> string;
  view_store : gmap string (list byte)
}.

Definition files (w : world) : fileview := FileView (resolve w) (store w).

#[global] Instance fileview_lookup : Lookup string (list byte) fileview :=
  fun path fv => view_store fv !! view_resolve fv path.

(** The file that [path] names gets the contents [data]; the file is
    created when it does not exist. *)
Definition put_file (path : string) (data : list byte) (w : world) : world :=
  World (resolve w) (<[resolve w path := data]> (store w))
        (denied_r w) (denied_w w) (stdout w).

Definition set_stdout (out : string) (w : world) : world :=
  World (resolve w) (store w) (denied_r w) (denied_w w) out.

(** A leading [./] does not change the file a relative path names. *)
Fixpoint strip_dot (path : string) : string :=
  match path with
  | String "." (String "/" path') => strip_dot path'
  | _ => path
  end.

(** [with open(path, "rb") as f: data = f.read()] *)
Definition read_bytes (path : string) : SE world (list byte) :=
  fun w =>
    match files w !! path with
    | Some data =>
        if decide (path ∈ denied_r w) then (Raise IOError, w)
        else (Ok data, w)
    | None => (Raise IOError, w)
    end.

(** [with open(path, "w") as f: block]: the file is created or emptied
    when it is opened; the text of the block reaches it when the block
    is left, normally or by an exception.  Line feeds are stored as they
    are written. *)
Definition with_open_w (path : string) (block : SE string unit)
  : SE world unit :=
  fun w =>
    if decide (path ∈ denied_w w) then (Raise IOError, w)
    else
      let w1 := put_file path [] w in
      let '(r, text) := block "" in
      (r, put_file path (list_byte_of_string text) w1).

(** [print(s)]; standard output is taken to accept any text, as it does
    with the error handler [surrogateescape]. *)
Definition print (s : string) : SE world unit :=
  fun w => (Ok tt, set_stdout (stdout w ++ s ++ nl) w).

(** [sys.exit(code)] *)
Definition sys_exit {S A} (code : Z) : SE S A := raise (SystemExit code).

(** The status the interpreter hands to the operating system. *)
Definition exit_status {A} (r : result A) : Z :=
  match r with
  | Ok _ => 0
  | Raise (SystemExit code) => code
  | Raise _ => 1
  end.

End Py.

Import Py.

Declare Scope se_scope.
Delimit Scope se_scope with se.
Notation "x <- c1 ;; c2" := (bind c1 (fun x => c2))
  (at level 100, c1 at next level, c2 at level 200, right associativity)
  : se_scope.
Notation "c1 ;; c2" := (bind c1 (fun _ => c2))
  (at level 100, c2 at level 200, right associativity) : se_scope.
Local Open Scope se_scope.

(** ** The script *)

(** The row loop of [bmp_to_header]: [for i in range(0, len(data), 16)]
    with its inner [for j in range(chunk_size)]. *)
Definition write_rows (data : list byte) : SE string unit :=
  for_each (range 0 (len data) 16) (fun i =>
    write "    " ;;
    let chunk_size := Z.min 16 (len data - i) in
    for_each (range 0 chunk_size 1) (fun j =>
      v <- bytes_getitem data (i + j) ;;
      write ("0x" ++ format_02x v) ;;
      if i + j <? len data - 1 then write ", " else pass) ;;
    write nl).

(** The body of [with open(output_file, "w") as f]. *)
Definition write_header (input_file var_name : string) (data : list byte)
  : SE string unit :=
  write ("// Generated from " ++ input_file ++ nl) ;;
  write ("#pragma once" ++ nl ++ nl) ;;
  write ("#include <cstdint>" ++ nl ++ nl) ;;
  write ("inline constexpr unsigned char " ++ var_name ++ "_data[] = {" ++ nl) ;;
  write_rows data ;;
  write ("};" ++ nl ++ nl) ;;
  write ("inline constexpr unsigned int " ++ var_name ++ "_len = sizeof("
           ++ var_name ++ "_data);" ++ nl).

Definition bmp_to_header (input_file output_file var_name : string)
  : SE world unit :=
  data <- read_bytes input_file ;;
  with_open_w output_file (write_header input_file var_name data).

(** [sys.argv[k]] *)
Definition argv_get (argv : list string) (k : Z) : SE world string :=
  getitem argv k.

(** The [if __name__ == "__main__":] block, over [sys.argv]. *)
Definition main (argv : list string) : SE world unit :=
  (if negb (len argv =? 4) then
     prog <- argv_get argv 0 ;;
     print ("Usage: " ++ prog ++ " <input.bmp> <output.h> <var_name>") ;;
     sys_exit 1
   else pass) ;;
  a1 <- argv_get argv 1 ;;
  a2 <- argv_get argv 2 ;;
  a3 <- argv_get argv 3 ;;
  bmp_to_header a1 a2 a3 ;;
  out <- argv_get argv 2 ;;
  print ("Generated " ++ out).

(** The text the row loop writes, starting from nothing. *)
Definition array_body (data : list byte) : string :=
  snd (write_rows data "").

(** ** Reading the generated text back

    What a reader of the header sees: its lines, the entries of the array
    between the separators, and the byte each entry denotes. *)

Definition nonempty {A} (xs : list A) : bool :=
  match xs with
  | [] => false
  | _ :: _ => true
  end.

Definition is_newline (c : ascii) : bool := Ascii.eqb c (ascii_of_nat 10).

(** Blanks, commas and line feeds separate the entries of an initialiser
    list. *)
Definition is_sep (c : ascii) : bool :=
  Ascii.eqb c " " || Ascii.eqb c "," || is_newline c.

(** Puts a character in front of the first piece of a split. *)
Definition cons_head (c : ascii) (pieces : list string) : list string :=
  match pieces with
  | [] => [String c ""]
  | p :: ps => String c p :: ps
  end.

(** The pieces of [s] between separators, empty pieces included. *)
Fixpoint fields (sep : ascii -> bool) (s : string) : list string :=
  match s with
  | "" => [""]
  | String c s' =>
      if sep c then "" :: fields sep s' else cons_head c (fields sep s')
  end.

(** The entries of a piece of array text, formatting stripped. *)
Definition tokens (s : string) : list string :=
  List.filter (fun p => negb (String.eqb p "")) (fields is_sep s).

(** The lines of a text, as [str.splitlines] gives them for line feeds. *)
Fixpoint lines (s : string) : list string :=
  match s with
  | "" => []
  | String c s' =>
      if is_newline c then "" :: lines s' else cons_head c (lines s')
  end.

Fixpoint ends_with (suffix s : string) : bool :=
  String.eqb s suffix
  || match s with
     | "" => false
     | String _ s' => ends_with suffix s'
     end.

(** The value of a hexadecimal digit, either case. *)
Definition hex_value (c : ascii) : option N :=
  let n := N_of_ascii c in
  if (48 <=? n)%N && (n <=? 57)%N then Some (n - 48)%N
  else if (97 <=? n)%N && (n <=? 102)%N then Some (n - 87)%N
  else if (65 <=? n)%N && (n <=? 70)%N then Some (n - 55)%N
  else None.

(** The byte a literal [0xHH] denotes. *)
Definition parse_literal (tok : string) : option byte :=
  match tok with
  | String "0" (String "x" (String h (String l ""))) =>
      match hex_value h, hex_value l with
      | Some a, Some b => Byte.of_N (16 * a + b)
      | _, _ => None
      end
  | _ => None
  end.

(** Decodes every entry of an array text, in order. *)
Fixpoint decode_tokens (toks : list string) : option (list byte) :=
  match toks with
  | [] => Some []
  | t :: toks' =>
      match parse_literal t, decode_tokens toks' with
      | Some b, Some bs => Some (b :: bs)
      | _, _ => None
      end
  end.

Definition decode_body (body : string) : option (list byte) :=
  decode_tokens (tokens body).

(** ** The layout in the words of the format description *)

Definition lower_hex_digit (n : N) : ascii :=
  match String.get (N.to_nat n) "0123456789abcdef" with
  | Some c => c
  | None => "?"%char
  end.

(** [0x] and two lower-case hexadecimal digits. *)
Definition hex_literal (b : byte) : string :=
  String "0" (String "x"
    (String (lower_hex_digit (Byte.to_N b / 16))
      (String (lower_hex_digit (Byte.to_N b mod 16)) ""))).

(** The entries of one row; [more] tells whether values follow the row. *)
Fixpoint entries (more : bool) (row : list byte) : string :=
  match row with
  | [] => ""
  | b :: row' =>
      hex_literal b
      ++ (if nonempty row' || more then ", " else "")
      ++ entries more row'
  end.

(** Cuts a list into pieces of [k] elements, the last one possibly
    shorter; [fuel] bounds the number of pieces. *)
Fixpoint chunks {A} (fuel k : nat) (xs : list A) : list (list A) :=
  match fuel with
  | O => []
  | S fuel' =>
      match xs with
      | [] => []
      | _ :: _ => firstn k xs :: chunks fuel' k (skipn k xs)
      end
  end.

Definition rows (data : list byte) : list (list byte) :=
  chunks (List.length data) 16 data.

Fixpoint render_rows (rs : list (list byte)) : string :=
  match rs with
  | [] => ""
  | r :: rs' => "    " ++ entries (nonempty rs') r ++ nl ++ render_rows rs'
  end.

(** The rows as lines of text, without their line feeds. *)
Fixpoint row_lines (rs : list (list byte)) : list string :=
  match rs with
  | [] => []
  | r :: rs' => ("    " ++ entries (nonempty rs') r) :: row_lines rs'
  end.

(** The line that declares the length constant. *)
Definition len_line (var_name : string) : string :=
  "inline constexpr unsigned int " ++ var_name ++ "_len = sizeof("
    ++ var_name ++ "_data);".

(** What the script has written when it comes to the opening of the
    array. *)
Definition header_start (input_file : string) : string :=
  "// Generated from " ++ input_file ++ nl
  ++ "#pragma once" ++ nl
  ++ nl
  ++ "#include <cstdint>" ++ nl
  ++ nl.

(** The whole header for a given array body. *)
Definition header_text (input_file var_name body : string) : string :=
  "// Generated from " ++ input_file ++ nl
  ++ "#pragma once" ++ nl
  ++ nl
  ++ "#include <cstdint>" ++ nl
  ++ nl
  ++ "inline constexpr unsigned char " ++ var_name ++ "_data[] = {" ++ nl
  ++ body
  ++ "};" ++ nl
  ++ nl
  ++ len_line var_name ++ nl.

(** ** Sample inputs *)

Definition three_bytes : list byte := [x00; x41; xff].

Definition seventeen_bytes : list byte :=
  [x00; x01; x02; x03; x04; x05; x06; x07;
   x08; x09; x0a; x0b; x0c; x0d; x0e; x0f; x10].

(** A world with one readable file [icon.bmp] and nothing printed. *)
Definition world_with (data : list byte) : world :=
  World strip_dot {["icon.bmp" := data]} ∅ ∅ "".

(** A world where [icon.h] exists and [icon.bmp] does not. *)
Definition world_without_input : world :=
  World strip_dot {["icon.h" := three_bytes]} ∅ ∅ "".

(** A world where [icon.bmp] exists but may not be read. *)
Definition world_unreadable : world :=
  World strip_dot {["icon.bmp" := three_bytes; "icon.h" := three_bytes]}
        {["icon.bmp"]} ∅ "".

(** A world where [icon.bmp] can be read but [icon.h] may not be written. *)
Definition world_output_denied : world :=
  World strip_dot {["icon.bmp" := three_bytes]} ∅ {["icon.h"]} "".

(** A name with a byte that is not UTF-8, as a command line can hold
    it. *)
Definition bad_name : string := String (ascii_of_nat 255) "icon".

(** A world whose one file has such a name. *)
Definition world_with_bad_name : world :=
  World strip_dot {[bad_name := three_bytes]} ∅ ∅ "".

(** ** Characters of a text *)

Fixpoint string_forall (p : ascii -> bool) (s : string) : bool :=
  match s with
  | "" => true
  | String c s' => p c && string_forall p s'
  end.

Fixpoint char_in (c : ascii) (s : string) : bool :=
  match s with
  | "" => false
  | String d s' => Ascii.eqb c d || char_in c s'
  end.

(** The characters rows are made of: lower-case hexadecimal digits, the
    [x] of the prefix, comma, blank and line feed. *)
Definition body_char (c : ascii) : bool :=
  char_in c "0123456789abcdefx, " || is_newline c.

(** ** Reading a whole header back

    The lines between the six lines that open a header and the three that
    close it are the rows of the array; their entries, decoded in order,
    are the bytes of the array. *)
Definition header_rows (text : string) : list string :=
  let ls := lines text in
  firstn (List.length ls - 9) (skipn 6 ls).

Definition parse_header (text : string) : option (list byte) :=
  decode_tokens (List.concat (List.map tokens (header_rows text))).

(** ** What a C++ compiler makes of a header

    The initialisers of the array a header declares: the entries of its
    rows. *)
Definition array_entries (text : string) : list string :=
  List.concat (List.map tokens (header_rows text)).

(** [sizeof(<name>_data)] for the array a header declares: its elements
    have size one and it has no declared bound, so its size is the number
    of its initialisers.  For no initialisers, which ISO C++ does not
    allow, the size is 0, as GNU C++ has it. *)
Definition sizeof_data (text : string) : Z := len (array_entries text).

(** The value of [<name>_len]: the size converted to [unsigned int],
    taken to have 32 bits, that is, modulo 2^32. *)
Definition len_constant (text : string) : Z := sizeof_data text mod 2 ^ 32.


(** A text without line feed. *)
Fixpoint no_newline (s : string) : bool :=
  match s with
  | "" => true
  | String c s' => negb (is_newline c) && no_newline s'
  end.

(** * Properties *)

(** ** Strings *)

Section Strings.

Lemma append_assoc (a b c : string) : (a ++ b) ++ c = a ++ (b ++ c).
Proof. induction a as [|x a IH]; simpl; [reflexivity | now rewrite IH]. Qed.

Lemma append_nil_r (a : string) : a ++ "" = a.
Proof. induction a as [|x a IH]; simpl; [reflexivity | now rewrite IH]. Qed.

Lemma ends_with_append (pre suffix : string) :
  ends_with suffix (pre ++ suffix) = true.
Proof.
  induction pre as [|c pre IH]; simpl.
  - destruct suffix; simpl; rewrite ?Ascii.eqb_refl, ?String.eqb_refl;
      reflexivity.
  - rewrite IH. apply orb_true_r.
Qed.

Lemma cons_head_app (c : ascii) (ps qs : list string) :
  ps <> [] -> cons_head c (ps ++ qs)%list = (cons_head c ps ++ qs)%list.
Proof. destruct ps; [congruence | reflexivity]. Qed.

Lemma fields_not_nil sep s : fields sep s <> [].
Proof.
  destruct s as [|c s]; simpl; [discriminate |].
  destruct (sep c); [discriminate |].
  destruct (fields sep s); discriminate.
Qed.

(** A separator between two texts splits their pieces cleanly. *)
Lemma fields_app_sep sep (s1 s2 : string) (c : ascii) :
  sep c = true ->
  fields sep (s1 ++ String c s2) = (fields sep s1 ++ fields sep s2)%list.
Proof.
  intros Hc. induction s1 as [|a s1 IH]; simpl.
  - now rewrite Hc.
  - rewrite IH. destruct (sep a); [reflexivity |].
    apply cons_head_app, fields_not_nil.
Qed.

Lemma tokens_app_sep (s1 s2 : string) (c : ascii) :
  is_sep c = true ->
  tokens (s1 ++ String c s2) = (tokens s1 ++ tokens s2)%list.
Proof.
  intros Hc. unfold tokens.
  now rewrite (fields_app_sep _ _ _ _ Hc), List.filter_app.
Qed.

Lemma tokens_sep (c : ascii) (s : string) :
  is_sep c = true -> tokens (String c s) = tokens s.
Proof. intros Hc. apply (tokens_app_sep "" s c Hc). Qed.

Lemma tokens_indent (s : string) : tokens ("    " ++ s) = tokens s.
Proof. simpl. now rewrite !tokens_sep. Qed.

Lemma tokens_nl (s : string) : tokens (nl ++ s) = tokens s.
Proof. simpl. now rewrite tokens_sep. Qed.

Lemma no_newline_app (s1 s2 : string) :
  no_newline (s1 ++ s2) = no_newline s1 && no_newline s2.
Proof.
  induction s1 as [|c s1 IH]; simpl; [reflexivity |].
  now rewrite IH, andb_assoc.
Qed.

(** A text without line feed, then a line feed, is a line. *)
Lemma lines_line (s1 s2 : string) :
  no_newline s1 = true -> lines (s1 ++ nl ++ s2) = s1 :: lines s2.
Proof.
  induction s1 as [|c s1 IH]; simpl; intros H; [reflexivity |].
  apply andb_true_iff in H as [Hc Hs].
  apply negb_true_iff in Hc. rewrite Hc.
  simpl in IH. now rewrite (IH Hs).
Qed.

End Strings.

(** ** Ranges and indexing *)

Section Ranges.

Lemma range_nil (start stop step : Z) :
  0 < step -> stop <= start -> range start stop step = [].
Proof.
  intros Hstep Hle. unfold range, range_len.
  assert ((stop - start + step - 1) / step < 1) as Hq
    by (apply Z.div_lt_upper_bound; lia).
  replace (Z.to_nat ((stop - start + step - 1) / step)) with O by lia.
  reflexivity.
Qed.

Lemma range_len_succ (start stop step : Z) :
  0 < step -> start < stop ->
  range_len start stop step = S (range_len (start + step) stop step).
Proof.
  intros Hstep Hlt. unfold range_len.
  replace (stop - start + step - 1) with ((stop - start - 1) + 1 * step) by lia.
  replace (stop - (start + step) + step - 1) with (stop - start - 1) by lia.
  rewrite Z.div_add by lia.
  assert (0 <= (stop - start - 1) / step) by (apply Z.div_pos; lia).
  lia.
Qed.

(** The first index of a range that is not empty, and the range of the
    others. *)
Lemma range_cons (start stop step : Z) :
  0 < step -> start < stop ->
  range start stop step = start :: range (start + step) stop step.
Proof.
  intros Hstep Hlt. unfold range.
  rewrite (range_len_succ _ _ _ Hstep Hlt). simpl List.seq.
  rewrite <- List.seq_shift, List.map_cons, List.map_map.
  f_equal; [lia |].
  apply List.map_ext. intros k. lia.
Qed.

Lemma range_unit (m : Z) :
  range 0 m 1 = List.map Z.of_nat (List.seq 0 (Z.to_nat m)).
Proof.
  unfold range, range_len.
  replace (m - 0 + 1 - 1) with m by lia. rewrite Z.div_1_r.
  apply List.map_ext. intros k. lia.
Qed.

Lemma len_app {A} (xs ys : list A) : len (xs ++ ys) = len xs + len ys.
Proof. unfold len. rewrite List.length_app. lia. Qed.

Lemma len_cons {A} (x : A) (xs : list A) : len (x :: xs) = 1 + len xs.
Proof. unfold len. simpl List.length. lia. Qed.

Lemma len_nonneg {A} (xs : list A) : 0 <= len xs.
Proof. unfold len. lia. Qed.

(** Indexing just past a known prefix. *)
Lemma getitem_middle {St A} (pre post : list A) (x : A) (k : Z) (s : St) :
  k = len pre -> getitem (pre ++ x :: post) k s = (Ok x, s).
Proof.
  intros ->. unfold getitem.
  pose proof (len_nonneg pre) as Hpre. pose proof (len_nonneg post) as Hpost.
  destruct (Z.ltb_spec (len pre) 0) as [|_]; [lia |].
  rewrite len_app. change (len (x :: post)) with (Z.of_nat (S (List.length post))).
  unfold len in *.
  destruct (Z.leb_spec 0 (Z.of_nat (List.length pre))) as [_|]; [| lia].
  destruct (Z.ltb_spec (Z.of_nat (List.length pre))
              (Z.of_nat (List.length pre) + Z.of_nat (S (List.length post))))
    as [_|]; [| lia].
  simpl. rewrite Nat2Z.id, List.nth_error_app2 by lia.
  now rewrite Nat.sub_diag.
Qed.

Lemma bytes_getitem_middle {St} (pre post : list byte) (b : byte) (k : Z)
  (s : St) :
  k = len pre ->
  bytes_getitem (pre ++ b :: post) k s = (Ok (int_of_byte b), s).
Proof.
  intros Hk. unfold bytes_getitem, bind.
  now rewrite (getitem_middle pre post b k s Hk).
Qed.

(** The format the script asks for gives, on a byte, the literal of the
    format description. *)
Lemma format_byte (b : byte) : "0x" ++ format_02x (int_of_byte b) = hex_literal b.
Proof. destruct b; vm_compute; reflexivity. Qed.

End Ranges.

(** ** Encoding *)

Section Encoding.

Lemma write_ok (s buf : string) :
  encodable s = true -> write s buf = (Ok tt, buf ++ s).
Proof. intros H. unfold write. now rewrite H. Qed.

Lemma write_fail (s buf : string) :
  encodable s = false -> write s buf = (Raise UnicodeEncodeError, buf).
Proof. intros H. unfold write. now rewrite H. Qed.

Lemma utf8_run_app (st : utf8_state) (a b : string) :
  utf8_run st (a ++ b)
  = match utf8_run st a with
    | Some st' => utf8_run st' b
    | None => None
    end.
Proof.
  revert st. induction a as [|c a IH]; intros st; simpl; [reflexivity |].
  destruct (utf8_step st c); [apply IH | reflexivity].
Qed.

(** Text after text that can be encoded. *)
Lemma encodable_app (a b : string) :
  encodable a = true -> encodable (a ++ b) = encodable b.
Proof.
  unfold encodable. rewrite utf8_run_app.
  destruct (utf8_run U_start a) as [[]|]; try discriminate. reflexivity.
Qed.

(** An ASCII character ends the character before it. *)
Lemma utf8_step_ascii (st : utf8_state) (c : ascii) :
  in_range 0 127 c = true ->
  utf8_step st c = match st with U_start => Some U_start | _ => None end.
Proof.
  unfold in_range. intros H. apply andb_true_iff in H as [_ H].
  apply N.leb_le in H.
  destruct st; unfold utf8_step, in_range;
    repeat match goal with
           | |- context [(?k <=? N_of_ascii c)%N] =>
               destruct (N.leb_spec k (N_of_ascii c)); try lia
           | |- context [(N_of_ascii c <=? ?k)%N] =>
               destruct (N.leb_spec (N_of_ascii c) k); try lia
           end; reflexivity.
Qed.

(** Text before an ASCII character: both sides are encoded on their
    own. *)
Lemma encodable_app_ascii (a b : string) (c : ascii) :
  in_range 0 127 c = true ->
  encodable (a ++ String c b) = encodable a && encodable (String c b).
Proof.
  intros Hc. unfold encodable. rewrite utf8_run_app.
  destruct (utf8_run U_start a) as [st|]; [| reflexivity].
  destruct st; try reflexivity;
    cbn [utf8_run]; now rewrite (utf8_step_ascii _ c Hc).
Qed.

Lemma encodable_literal (b : byte) : encodable (hex_literal b) = true.
Proof. destruct b; reflexivity. Qed.

Example encodable_examples :
  encodable "icon_16x16" = true
  /\ encodable "icône" = true
  /\ encodable bad_name = false.
Proof. now repeat split. Qed.

End Encoding.

(** ** The row loop *)

Section Loops.

Variable data : list byte.

(** The inner loop, started at column [j0] of the row that begins at
    index [i]: it writes the entries of the values [xs] it walks over. *)
Lemma entry_loop (i : Z) (xs : list byte) :
  forall (pre post : list byte) (j0 : nat) (buf : string),
    data = (pre ++ xs ++ post)%list ->
    len pre = i + Z.of_nat j0 ->
    for_each (List.map Z.of_nat (List.seq j0 (List.length xs)))
      (fun j =>
         v <- bytes_getitem data (i + j) ;;
         write ("0x" ++ format_02x v) ;;
         if i + j <? len data - 1 then write ", " else pass) buf
    = (Ok tt, buf ++ entries (nonempty post) xs).
Proof.
  induction xs as [|b xs' IH]; intros pre post j0 buf Hdata Hpre.
  - simpl. now rewrite append_nil_r.
  - cbn [List.length List.seq List.map for_each].
    unfold bind at 1. unfold bind at 1.
    rewrite Hdata at 1.
    rewrite (bytes_getitem_middle pre (xs' ++ post) b _ buf) by lia.
    unfold bind at 1.
    rewrite format_byte, (write_ok (hex_literal b)) by apply encodable_literal.
    cbv beta iota.
    assert (len data = len pre + 1 + len xs' + len post) as Hlen.
    { rewrite Hdata, !len_app, len_cons. lia. }
    assert ((if i + Z.of_nat j0 <? len data - 1 then write ", " else pass)
              (buf ++ hex_literal b)
            = (Ok tt, (buf ++ hex_literal b)
                        ++ (if nonempty xs' || nonempty post then ", " else "")))
      as ->.
    { assert (nonempty xs' || nonempty post = (0 <? len xs' + len post)) as ->.
      { symmetry.
        destruct xs' as [|c xs'']; [destruct post as [|c post'] |].
        - reflexivity.
        - apply Z.ltb_lt. rewrite len_cons.
          pose proof (len_nonneg post'). change (len (@nil byte)) with 0. lia.
        - apply Z.ltb_lt. rewrite len_cons.
          pose proof (len_nonneg xs''). pose proof (len_nonneg post). lia. }
      destruct (Z.ltb_spec (i + Z.of_nat j0) (len data - 1)) as [Hlt|Hge];
        destruct (Z.ltb_spec 0 (len xs' + len post)) as [Hpos|Hnpos];
        try lia; try reflexivity.
      unfold pass, ret. now rewrite append_nil_r. }
    rewrite (IH (pre ++ [b])%list post (S j0)).
    + cbn [entries]. now rewrite !append_assoc.
    + rewrite Hdata, <- List.app_assoc. reflexivity.
    + rewrite len_app, len_cons. change (len (@nil byte)) with 0. lia.
Qed.

Lemma chunks_nil {A} (fuel k : nat) : @chunks A fuel k [] = [].
Proof. destruct fuel; reflexivity. Qed.

Lemma chunks_nonempty {A} (fuel k : nat) (xs : list A) :
  (List.length xs <= fuel)%nat -> nonempty (chunks fuel k xs) = nonempty xs.
Proof.
  destruct fuel, xs; simpl; intros H; try reflexivity. lia.
Qed.

(** The outer loop from the row that starts after [pre]: it writes the
    remaining values [rest] row by row. *)
Lemma rows_loop (fuel : nat) :
  forall (pre rest : list byte) (buf : string),
    data = (pre ++ rest)%list ->
    (List.length rest <= fuel)%nat ->
    for_each (range (len pre) (len data) 16)
      (fun i =>
         write "    " ;;
         let chunk_size := Z.min 16 (len data - i) in
         for_each (range 0 chunk_size 1) (fun j =>
           v <- bytes_getitem data (i + j) ;;
           write ("0x" ++ format_02x v) ;;
           if i + j <? len data - 1 then write ", " else pass) ;;
         write nl) buf
    = (Ok tt, buf ++ render_rows (chunks fuel 16 rest)).
Proof.
  induction fuel as [|fuel IH]; intros pre rest buf Hdata Hfuel.
  - destruct rest; [| simpl in Hfuel; lia].
    rewrite List.app_nil_r in Hdata. subst pre.
    rewrite range_nil by lia. simpl. now rewrite append_nil_r.
  - destruct rest as [|b rest'].
    { rewrite List.app_nil_r in Hdata. subst pre.
      rewrite range_nil by lia. simpl. now rewrite append_nil_r. }
    set (rest := (b :: rest')%list) in *.
    assert (len data = len pre + len rest) as Hlen by (now rewrite Hdata, len_app).
    assert (0 < len rest) as Hpos
      by (unfold rest; rewrite len_cons; pose proof (len_nonneg rest'); lia).
    rewrite range_cons by lia.
    cbn [for_each]. unfold bind at 1. unfold bind at 1.
    rewrite (write_ok "    ") by reflexivity.
    cbv beta iota zeta. unfold bind at 1.
    rewrite range_unit.
    replace (Z.to_nat (Z.min 16 (len data - len pre)))
      with (List.length (firstn 16 rest))
      by (rewrite List.length_firstn; unfold len in *; lia).
    rewrite (entry_loop (len pre) (firstn 16 rest) pre (skipn 16 rest) 0)
      by (rewrite ?List.firstn_skipn; simpl; auto; lia).
    rewrite (write_ok nl) by reflexivity. cbv beta iota.
    change (chunks (S fuel) 16 rest)
      with (firstn 16 rest :: chunks fuel 16 (skipn 16 rest)).
    cbn [render_rows].
    rewrite chunks_nonempty
      by (rewrite List.length_skipn; unfold rest in *; simpl in *; lia).
    destruct (Nat.le_gt_cases 16 (List.length rest)) as [Hfull|Hshort].
    + replace (len pre + 16) with (len (pre ++ firstn 16 rest)%list)
        by (rewrite len_app; unfold len; rewrite List.length_firstn; lia).
      rewrite (IH (pre ++ firstn 16 rest)%list (skipn 16 rest)).
      * now rewrite !append_assoc.
      * now rewrite <- List.app_assoc, List.firstn_skipn.
      * rewrite List.length_skipn. lia.
    + rewrite range_nil by (unfold len in *; lia).
      rewrite (List.skipn_all2 rest) by lia.
      rewrite chunks_nil. cbn [for_each render_rows]. unfold pass, ret.
      now rewrite !append_assoc, append_nil_r.
Qed.

(** The row loop writes the values of [data] sixteen to a row and never
    raises. *)
Lemma write_rows_spec (buf : string) :
  write_rows data buf = (Ok tt, buf ++ render_rows (rows data)).
Proof.
  unfold write_rows, rows.
  exact (rows_loop (List.length data) [] data buf eq_refl (Nat.le_refl _)).
Qed.

End Loops.

Lemma array_body_rows (data : list byte) :
  array_body data = render_rows (rows data).
Proof. unfold array_body. now rewrite write_rows_spec. Qed.

(** ** Rows *)

Section Rows.

Lemma chunks_concat {A} (fuel k : nat) :
  forall xs : list A,
    (0 < k)%nat -> (List.length xs <= fuel)%nat ->
    List.concat (chunks fuel k xs) = xs.
Proof.
  induction fuel as [|fuel IH]; intros xs Hk Hfuel.
  - destruct xs; [reflexivity | simpl in Hfuel; lia].
  - destruct xs as [|x xs']; [reflexivity |].
    cbn [chunks List.concat].
    rewrite IH; [apply List.firstn_skipn | exact Hk |].
    rewrite List.length_skipn. simpl in *. lia.
Qed.

Lemma chunks_rows_ok {A} (fuel k : nat) :
  forall xs : list A,
    (0 < k)%nat ->
    List.Forall (fun r => nonempty r = true /\ (List.length r <= k)%nat)
                (chunks fuel k xs).
Proof.
  induction fuel as [|fuel IH]; intros xs Hk; [constructor |].
  destruct xs as [|x xs']; [constructor |].
  cbn [chunks]. constructor; [| apply IH, Hk].
  split.
  - destruct k; [lia | reflexivity].
  - rewrite List.length_firstn. lia.
Qed.

Lemma rows_concat (data : list byte) : List.concat (rows data) = data.
Proof. apply chunks_concat; lia. Qed.

Lemma rows_ok (data : list byte) :
  List.Forall (fun r => nonempty r = true /\ (List.length r <= 16)%nat)
              (rows data).
Proof. apply chunks_rows_ok. lia. Qed.

Lemma nonempty_app {A} (xs ys : list A) :
  nonempty (xs ++ ys) = nonempty xs || nonempty ys.
Proof. destruct xs; reflexivity. Qed.

Lemma nonempty_concat {A} (rs : list (list A)) :
  List.Forall (fun r => nonempty r = true) rs ->
  nonempty (List.concat rs) = nonempty rs.
Proof.
  destruct 1 as [|r rs' Hr _]; [reflexivity |].
  simpl. now rewrite nonempty_app, Hr.
Qed.

(** *** Entries as tokens *)

Lemma tokens_literal (b : byte) : tokens (hex_literal b) = [hex_literal b].
Proof. destruct b; reflexivity. Qed.

Lemma parse_hex_literal (b : byte) : parse_literal (hex_literal b) = Some b.
Proof. destruct b; reflexivity. Qed.

Lemma no_newline_literal (b : byte) : no_newline (hex_literal b) = true.
Proof. destruct b; reflexivity. Qed.

Lemma tokens_trailing_sep (s : string) : tokens (s ++ " ") = tokens s.
Proof.
  rewrite (tokens_app_sep s "" " " eq_refl).
  change (tokens "") with (@nil string). apply List.app_nil_r.
Qed.

Lemma tokens_entries_then (more : bool) (r : list byte) (c : ascii) (s : string) :
  is_sep c = true ->
  tokens (entries more r ++ String c s)
  = (List.map hex_literal r ++ tokens s)%list.
Proof.
  intros Hc. induction r as [|b r' IH]; cbn [entries List.map].
  - simpl. now apply tokens_sep.
  - rewrite !append_assoc.
    destruct (nonempty r' || more) eqn:Hsep.
    + change (", " ++ entries more r' ++ String c s)
        with (String "," (String " " (entries more r' ++ String c s))).
      rewrite (tokens_app_sep _ _ "," eq_refl), tokens_literal.
      rewrite (tokens_sep " " _ eq_refl), IH. reflexivity.
    + apply orb_false_iff in Hsep as [Hr' _].
      destruct r'; [| discriminate]. simpl entries. simpl List.map.
      change ("" ++ "" ++ String c s) with (String c s).
      now rewrite (tokens_app_sep _ _ c Hc), tokens_literal.
Qed.

Lemma tokens_entries_nl (more : bool) (r : list byte) (s : string) :
  tokens (entries more r ++ nl ++ s)
  = (List.map hex_literal r ++ tokens s)%list.
Proof. apply (tokens_entries_then more r (ascii_of_nat 10) s eq_refl). Qed.

Lemma tokens_entries (more : bool) (r : list byte) :
  tokens (entries more r) = List.map hex_literal r.
Proof.
  rewrite <- tokens_trailing_sep.
  rewrite (tokens_entries_then more r " " "" eq_refl).
  change (tokens "") with (@nil string). apply List.app_nil_r.
Qed.

Lemma tokens_render_rows (rs : list (list byte)) :
  tokens (render_rows rs) = List.map hex_literal (List.concat rs).
Proof.
  induction rs as [|r rs' IH]; [reflexivity |].
  cbn [render_rows List.concat].
  rewrite tokens_indent, List.map_app, <- IH.
  apply tokens_entries_nl.
Qed.

Lemma decode_literals (bs : list byte) :
  decode_tokens (List.map hex_literal bs) = Some bs.
Proof.
  induction bs as [|b bs IH]; [reflexivity |].
  cbn [List.map decode_tokens]. now rewrite parse_hex_literal, IH.
Qed.

(** *** Rows as lines *)

Lemma no_newline_entries (more : bool) (r : list byte) :
  no_newline (entries more r) = true.
Proof.
  induction r as [|b r' IH]; [reflexivity |].
  cbn [entries]. rewrite !no_newline_app, no_newline_literal, IH.
  now destruct (nonempty r' || more).
Qed.

Lemma lines_render_rows (rs : list (list byte)) :
  lines (render_rows rs) = row_lines rs.
Proof.
  induction rs as [|r rs' IH]; [reflexivity |].
  cbn [render_rows row_lines]. rewrite <- IH.
  rewrite <- (append_assoc "    "). apply lines_line.
  rewrite no_newline_app. apply no_newline_entries.
Qed.

End Rows.

(** ** Where each value sits in the text *)

Section Placement.

Lemma entries_split (more : bool) (r1 r2 : list byte) (b : byte) :
  entries more (r1 ++ b :: r2)
  = entries true r1 ++ hex_literal b
      ++ (if nonempty r2 || more then ", " else "") ++ entries more r2.
Proof.
  induction r1 as [|a r1 IH]; [reflexivity |].
  cbn [List.app entries].
  rewrite IH, nonempty_app, !orb_true_r, !append_assoc. reflexivity.
Qed.

(** What follows the place of a value never starts with a comma. *)
Lemma entries_tail_no_comma (more : bool) (r : list byte) (s : string) :
  String.prefix "," (entries more r ++ nl ++ s) = false.
Proof. destruct r as [|b r]; reflexivity. Qed.

(** A value of the sequence, found in the rendered rows: the text before
    it holds the entries of the values before it, the text after it those
    of the values after it, and a comma and a blank come right after it
    exactly when values follow; after the last value only the line feed
    is left. *)
Lemma render_rows_split (rs : list (list byte)) :
  forall (l1 l2 : list byte) (b : byte),
    List.Forall (fun r => nonempty r = true) rs ->
    List.concat rs = (l1 ++ b :: l2)%list ->
    exists pre rest : string,
      render_rows rs
      = pre ++ hex_literal b ++ (if nonempty l2 then ", " else "") ++ rest
      /\ tokens pre = List.map hex_literal l1
      /\ tokens rest = List.map hex_literal l2
      /\ String.prefix "," rest = false
      /\ (if nonempty l2 then True else rest = nl).
Proof.
  induction rs as [|r rs' IH]; intros l1 l2 b Hne Hcat.
  - destruct l1; discriminate.
  - inversion Hne as [|? ? Hr Hne']; subst.
    cbn [List.concat] in Hcat.
    assert ((exists r2, r = (l1 ++ b :: r2)%list
                        /\ l2 = (r2 ++ List.concat rs')%list)
            \/ (exists l1', l1 = (r ++ l1')%list
                            /\ List.concat rs' = (l1' ++ b :: l2)%list))
      as [(r2 & -> & ->) | (l1' & -> & Hcat')].
    { apply List.app_eq_app in Hcat as [l [[-> Hl] | [-> Hl]]].
      - destruct l as [|b' l'].
        + right. exists []. rewrite !List.app_nil_r. now split.
        + injection Hl as <- ->. left. now exists l'.
      - right. now exists l. }
    + (* the value is in the first row *)
      exists ("    " ++ entries true l1), (entries (nonempty rs') r2 ++ nl ++ render_rows rs').
      cbn [render_rows].
      rewrite entries_split, nonempty_app, (nonempty_concat rs' Hne').
      repeat split.
      * now rewrite !append_assoc.
      * now rewrite tokens_indent, tokens_entries.
      * now rewrite tokens_entries_nl, tokens_render_rows, List.map_app.
      * apply entries_tail_no_comma.
      * destruct r2; [destruct rs' |]; simpl; trivial.
    + (* the value is in a later row *)
      destruct (IH l1' l2 b Hne' Hcat')
        as (pre & rest & Heq & Hpre & Hrest & Hno & Hlast).
      assert (nonempty rs' = true) as Hmore.
      { rewrite <- (nonempty_concat rs' Hne'), Hcat', nonempty_app.
        apply orb_true_r. }
      exists ("    " ++ entries true r ++ nl ++ pre), rest.
      cbn [render_rows]. rewrite Hmore, Heq.
      repeat split; try assumption.
      * now rewrite !append_assoc.
      * rewrite tokens_indent, List.map_app, <- Hpre.
        apply tokens_entries_nl.
Qed.

(** A row that is followed by values ends with a comma and a blank. *)
Lemma entries_more_end (r : list byte) :
  nonempty r = true -> exists pre, entries true r = pre ++ ", ".
Proof.
  induction r as [|b r' IH]; [discriminate |]. intros _.
  destruct r' as [|c r''].
  - exists (hex_literal b). reflexivity.
  - destruct (IH eq_refl) as [pre Hpre].
    exists (hex_literal b ++ ", " ++ pre).
    change (entries true (b :: c :: r''))
      with (hex_literal b ++ ", " ++ entries true (c :: r'')).
    now rewrite Hpre, !append_assoc.
Qed.

Lemma row_lines_ends (rs : list (list byte)) :
  List.Forall (fun r => nonempty r = true) rs ->
  List.Forall (fun ln => ends_with ", " ln = true)
              (List.removelast (row_lines rs)).
Proof.
  induction 1 as [|r rs' Hr Hne IH]; [constructor |].
  destruct rs' as [|r' rs'']; [constructor |].
  change (row_lines (r :: r' :: rs''))
    with (("    " ++ entries true r) :: row_lines (r' :: rs'')).
  change (List.removelast (("    " ++ entries true r) :: row_lines (r' :: rs'')))
    with (("    " ++ entries true r)
            :: List.removelast (row_lines (r' :: rs''))).
  constructor; [| exact IH].
  destruct (entries_more_end r Hr) as [pre ->].
  rewrite <- append_assoc. apply ends_with_append.
Qed.

Lemma row_lines_tokens (rs : list (list byte)) :
  List.Forall (fun r => (List.length r <= 16)%nat) rs ->
  List.Forall (fun ln => (List.length (tokens ln) <= 16)%nat) (row_lines rs).
Proof.
  induction 1 as [|r rs' Hr _ IH]; [constructor |].
  cbn [row_lines]. constructor; [| exact IH].
  now rewrite tokens_indent, tokens_entries, List.length_map.
Qed.

End Placement.

(** ** The conversion as a whole *)

Section Conversion.

(** Each text the script writes around an argument can be encoded
    exactly when the argument can. *)
Lemma encodable_comment (input_file : string) :
  encodable ("// Generated from " ++ input_file ++ nl) = encodable input_file.
Proof.
  rewrite encodable_app by reflexivity.
  change (input_file ++ nl) with (input_file ++ String (ascii_of_nat 10) "").
  rewrite (encodable_app_ascii input_file "" (ascii_of_nat 10) eq_refl).
  apply andb_true_r.
Qed.

Lemma encodable_opening (var_name : string) :
  encodable ("inline constexpr unsigned char " ++ var_name
               ++ "_data[] = {" ++ nl)
  = encodable var_name.
Proof.
  rewrite encodable_app by reflexivity.
  change (var_name ++ "_data[] = {" ++ nl)
    with (var_name ++ String "_" ("data[] = {" ++ nl)).
  rewrite (encodable_app_ascii var_name _ "_" eq_refl).
  apply andb_true_r.
Qed.

Lemma encodable_len_line (var_name : string) :
  encodable ("inline constexpr unsigned int " ++ var_name ++ "_len = sizeof("
               ++ var_name ++ "_data);" ++ nl)
  = encodable var_name.
Proof.
  assert (encodable ("_len = sizeof(" ++ var_name ++ "_data);" ++ nl)
          = encodable var_name) as Htail.
  { rewrite encodable_app by reflexivity.
    change (var_name ++ "_data);" ++ nl)
      with (var_name ++ String "_" ("data);" ++ nl)).
    rewrite (encodable_app_ascii var_name _ "_" eq_refl).
    apply andb_true_r. }
  rewrite encodable_app by reflexivity.
  change (var_name ++ "_len = sizeof(" ++ var_name ++ "_data);" ++ nl)
    with (var_name
            ++ String "_" ("len = sizeof(" ++ var_name ++ "_data);" ++ nl)).
  rewrite (encodable_app_ascii var_name _ "_" eq_refl).
  change (String "_" ("len = sizeof(" ++ var_name ++ "_data);" ++ nl))
    with ("_len = sizeof(" ++ var_name ++ "_data);" ++ nl).
  rewrite Htail. now destruct (encodable var_name).
Qed.

(** The block of the output file: it ends normally when path and
    identifier can be encoded; otherwise it raises at the first text it
    cannot encode, with what it wrote before left in the file. *)
Lemma write_header_run (input_file var_name : string) (data : list byte) :
  write_header input_file var_name data ""
  = if encodable input_file
    then if encodable var_name
         then (Ok tt, header_text input_file var_name (array_body data))
         else (Raise UnicodeEncodeError, header_start input_file)
    else (Raise UnicodeEncodeError, "").
Proof.
  unfold write_header. unfold bind at 1.
  destruct (encodable input_file) eqn:Hin.
  - rewrite write_ok by (now rewrite encodable_comment). cbv beta iota.
    unfold bind at 1. rewrite write_ok by reflexivity. cbv beta iota.
    unfold bind at 1. rewrite write_ok by reflexivity. cbv beta iota.
    unfold bind at 1.
    destruct (encodable var_name) eqn:Hvar.
    + rewrite write_ok by (now rewrite encodable_opening). cbv beta iota.
      unfold bind at 1. rewrite write_rows_spec, <- array_body_rows.
      cbv beta iota. unfold bind at 1.
      rewrite write_ok by reflexivity. cbv beta iota.
      rewrite write_ok by (now rewrite encodable_len_line).
      unfold header_text, len_line. f_equal.
      rewrite !append_assoc. reflexivity.
    + rewrite write_fail by (now rewrite encodable_opening).
      unfold header_start. f_equal. rewrite !append_assoc. reflexivity.
  - rewrite write_fail by (now rewrite encodable_comment). reflexivity.
Qed.

Lemma write_header_spec (input_file var_name : string) (data : list byte) :
  encodable input_file = true ->
  encodable var_name = true ->
  write_header input_file var_name data ""
  = (Ok tt, header_text input_file var_name (array_body data)).
Proof. intros Hin Hvar. now rewrite write_header_run, Hin, Hvar. Qed.

(** *** Files as paths show them *)

Lemma files_lookup (w : world) (path : string) :
  files w !! path = store w !! resolve w path.
Proof. reflexivity. Qed.

Lemma files_put_same (p q : string) (data : list byte) (w : world) :
  resolve w p = resolve w q -> files (put_file p data w) !! q = Some data.
Proof.
  intros Hpq. rewrite files_lookup. cbn [put_file store resolve].
  rewrite Hpq. apply lookup_insert_eq.
Qed.

Lemma files_put_other (p q : string) (data : list byte) (w : world) :
  resolve w p <> resolve w q ->
  files (put_file p data w) !! q = files w !! q.
Proof.
  intros Hpq. rewrite !files_lookup. cbn [put_file store resolve].
  now apply lookup_insert_ne.
Qed.

Lemma put_file_twice (p : string) (data data' : list byte) (w : world) :
  put_file p data (put_file p data' w) = put_file p data w.
Proof.
  unfold put_file. cbn [resolve store denied_r denied_w stdout].
  now rewrite insert_insert_eq.
Qed.

(** *** The conversion *)

(** With a readable input and a writable output, the conversion leaves in
    the output file what its block wrote and ends as the block ends. *)
Lemma bmp_to_header_run (input_file output_file var_name : string)
  (B : list byte) (w : world) :
  files w !! input_file = Some B ->
  input_file ∉ denied_r w ->
  output_file ∉ denied_w w ->
  bmp_to_header input_file output_file var_name w
  = (fst (write_header input_file var_name B ""),
     put_file output_file
       (list_byte_of_string (snd (write_header input_file var_name B ""))) w).
Proof.
  intros Hin Hr Hw. unfold bmp_to_header, bind, read_bytes.
  rewrite Hin. rewrite decide_False by exact Hr.
  unfold with_open_w. rewrite decide_False by exact Hw.
  cbv zeta. destruct (write_header input_file var_name B "") as [r text].
  cbn [fst snd]. now rewrite put_file_twice.
Qed.

(** With path and identifier that can be encoded as well, the conversion
    ends normally and leaves the header in the output file, whatever the
    file held before. *)
Lemma bmp_to_header_ok (input_file output_file var_name : string)
  (B : list byte) (w : world) :
  files w !! input_file = Some B ->
  input_file ∉ denied_r w ->
  output_file ∉ denied_w w ->
  encodable input_file = true ->
  encodable var_name = true ->
  bmp_to_header input_file output_file var_name w
  = (Ok tt,
     put_file output_file
       (list_byte_of_string (header_text input_file var_name (array_body B)))
       w).
Proof.
  intros Hin Hr Hw Hi Hv.
  rewrite (bmp_to_header_run _ _ var_name B w Hin Hr Hw).
  now rewrite (write_header_spec _ _ B Hi Hv).
Qed.

(** A conversion that ends normally had a readable input, a writable
    output and a path and an identifier that can be encoded. *)
Lemma bmp_to_header_inv (input_file output_file var_name : string)
  (w w' : world) :
  bmp_to_header input_file output_file var_name w = (Ok tt, w') ->
  exists B : list byte,
    files w !! input_file = Some B
    /\ (input_file ∉ denied_r w)
    /\ (output_file ∉ denied_w w)
    /\ encodable input_file = true
    /\ encodable var_name = true.
Proof.
  intros Hrun.
  destruct (files w !! input_file) as [B|] eqn:Hin.
  - destruct (decide (input_file ∈ denied_r w)) as [Hr | Hr].
    + unfold bmp_to_header, bind, read_bytes in Hrun.
      rewrite Hin, (decide_True _ _ Hr) in Hrun. discriminate.
    + destruct (decide (output_file ∈ denied_w w)) as [Hw | Hw].
      * unfold bmp_to_header, bind, read_bytes, with_open_w in Hrun.
        rewrite Hin, (decide_False _ _ Hr), (decide_True _ _ Hw) in Hrun.
        discriminate.
      * rewrite (bmp_to_header_run _ _ var_name B w Hin Hr Hw) in Hrun.
        rewrite write_header_run in Hrun.
        exists B. repeat split; try assumption;
          destruct (encodable input_file), (encodable var_name);
          try reflexivity; discriminate.
  - unfold bmp_to_header, bind, read_bytes in Hrun.
    rewrite Hin in Hrun. discriminate.
Qed.

Example unreadable_input_example :
  bmp_to_header "icon.bmp" "icon.h" "icon" world_unreadable
  = (Raise IOError, world_unreadable).
Proof. vm_compute. reflexivity. Qed.

Example main_converts :
  fst (main ["bmp_to_header.py"; "icon.bmp"; "icon.h"; "icon"]
         (world_with three_bytes)) = Ok tt
  /\ stdout (snd (main ["bmp_to_header.py"; "icon.bmp"; "icon.h"; "icon"]
                    (world_with three_bytes)))
     = "Generated icon.h" ++ nl.
Proof. split; vm_compute; reflexivity. Qed.

Lemma argv_get_head (prog : string) (args : list string) (w : world) :
  argv_get (prog :: args) 0 w = (Ok prog, w).
Proof. apply (getitem_middle [] args prog 0 w). reflexivity. Qed.

End Conversion.

(** ** The lines of a header *)

Section HeaderText.

Lemma lines_render_rows_app (rs : list (list byte)) (s : string) :
  lines (render_rows rs ++ s) = (row_lines rs ++ lines s)%list.
Proof.
  induction rs as [|r rs' IH]; [reflexivity |].
  cbn [render_rows row_lines List.app]. rewrite <- IH.
  rewrite !append_assoc, <- (append_assoc "    ").
  apply lines_line.
  rewrite no_newline_app. apply no_newline_entries.
Qed.

Lemma lines_blank (s : string) : lines (nl ++ s) = "" :: lines s.
Proof. reflexivity. Qed.

Lemma lines_last (s : string) : no_newline s = true -> lines (s ++ nl) = [s].
Proof.
  intros Hs. rewrite <- (append_nil_r nl). now rewrite (lines_line s "" Hs).
Qed.

Lemma header_text_lines (input_file var_name : string) (B : list byte) :
  no_newline input_file = true ->
  no_newline var_name = true ->
  lines (header_text input_file var_name (array_body B))
  = ([ ("// Generated from " ++ input_file)%string;
       "#pragma once";
       "";
       "#include <cstdint>";
       "";
       ("inline constexpr unsigned char " ++ var_name ++ "_data[] = {")%string ]
     ++ lines (array_body B)
     ++ [ "};";
          "";
          ("inline constexpr unsigned int " ++ var_name ++ "_len = sizeof("
             ++ var_name ++ "_data);")%string ])%list.
Proof.
  intros Hin Hvar.
  rewrite array_body_rows, lines_render_rows.
  unfold header_text, len_line.
  rewrite <- (append_assoc "// Generated from " input_file).
  rewrite lines_line by (now rewrite no_newline_app, Hin).
  rewrite (lines_line "#pragma once") by reflexivity.
  rewrite lines_blank.
  rewrite (lines_line "#include <cstdint>") by reflexivity.
  rewrite lines_blank.
  rewrite <- (append_assoc var_name "_data[] = {").
  rewrite <- (append_assoc "inline constexpr unsigned char ").
  rewrite lines_line by (now rewrite !no_newline_app, Hvar).
  rewrite lines_render_rows_app.
  rewrite (lines_line "};") by reflexivity.
  rewrite lines_blank.
  rewrite lines_last by (now rewrite !no_newline_app, Hvar).
  reflexivity.
Qed.

Lemma strip_frame {A} (pre mid post : list A) :
  List.length pre = 6%nat ->
  List.length post = 3%nat ->
  firstn (List.length (pre ++ mid ++ post) - 9) (skipn 6 (pre ++ mid ++ post))
  = mid.
Proof.
  intros Hpre Hpost.
  rewrite !List.length_app, Hpre, Hpost.
  replace (6 + (List.length mid + 3) - 9)%nat with (List.length mid) by lia.
  rewrite List.skipn_app, Hpre, (List.skipn_all2 pre) by lia.
  cbn [List.app Nat.sub]. change (skipn 0 (mid ++ post)) with (mid ++ post)%list.
  rewrite List.firstn_app, Nat.sub_diag, List.firstn_all.
  cbn [firstn]. apply List.app_nil_r.
Qed.

(** The rows of a header are the lines of its array body. *)
Lemma header_text_rows (input_file var_name : string) (B : list byte) :
  no_newline input_file = true ->
  no_newline var_name = true ->
  header_rows (header_text input_file var_name (array_body B))
  = lines (array_body B).
Proof.
  intros Hin Hvar. unfold header_rows. cbv zeta.
  rewrite (header_text_lines input_file var_name B Hin Hvar).
  now rewrite strip_frame.
Qed.

Lemma tokens_row_lines (rs : list (list byte)) :
  List.concat (List.map tokens (row_lines rs))
  = List.map hex_literal (List.concat rs).
Proof.
  induction rs as [|r rs' IH]; [reflexivity |].
  cbn [row_lines List.map List.concat].
  now rewrite IH, tokens_indent, tokens_entries, List.map_app.
Qed.

(** The array a header declares has one initialiser per byte. *)
Lemma header_text_entries (input_file var_name : string) (B : list byte) :
  no_newline input_file = true ->
  no_newline var_name = true ->
  array_entries (header_text input_file var_name (array_body B))
  = List.map hex_literal B.
Proof.
  intros Hin Hvar. unfold array_entries.
  rewrite (header_text_rows input_file var_name B Hin Hvar).
  now rewrite array_body_rows, lines_render_rows, tokens_row_lines,
    rows_concat.
Qed.

Lemma header_text_sizeof (input_file var_name : string) (B : list byte) :
  no_newline input_file = true ->
  no_newline var_name = true ->
  sizeof_data (header_text input_file var_name (array_body B)) = len B.
Proof.
  intros Hin Hvar. unfold sizeof_data.
  rewrite (header_text_entries input_file var_name B Hin Hvar).
  unfold len. now rewrite List.length_map.
Qed.



End HeaderText.

(** * The generated header *)

(** ** The array body *)

(** C1. For every byte sequence [B], the array body holds exactly one
    hexadecimal literal per byte of [B], in the order of [B], and decoding
    the literals in order, formatting stripped, gives back [B]. *)
Theorem array_body_decodes (B : list byte) :
  tokens (array_body B) = List.map hex_literal B
  /\ List.length (tokens (array_body B)) = List.length B
  /\ decode_body (array_body B) = Some B.
Proof.
  assert (tokens (array_body B) = List.map hex_literal B) as Htok
    by now rewrite array_body_rows, tokens_render_rows, rows_concat.
  unfold decode_body. rewrite Htok, List.length_map, decode_literals.
  now repeat split.
Qed.




(** C3. Every value of the sequence but the very last is followed by a
    comma; the last value is followed by none.  The value [b] stands
    between the values [l1] and [l2]: its literal comes after the entries
    of [l1] and before those of [l2], and the one character between the
    literal and the rest is a comma exactly when [l2] is not empty; after
    the last value nothing but the line feed is left. *)
Theorem comma_after_all_but_last (l1 l2 : list byte) (b : byte) :
  exists pre rest : string,
    array_body (l1 ++ b :: l2)
    = pre ++ hex_literal b ++ (if nonempty l2 then "," else "") ++ rest
    /\ tokens pre = List.map hex_literal l1
    /\ tokens rest = List.map hex_literal l2
    /\ String.prefix "," rest = false
    /\ (if nonempty l2 then True else rest = nl).
Proof.
  destruct (render_rows_split (rows (l1 ++ b :: l2)) l1 l2 b)
    as (pre & rest & Heq & Hpre & Hrest & Hno & Hlast).
  - eapply List.Forall_impl; [| apply rows_ok]. now intros r [Hr _].
  - apply rows_concat.
  - exists pre, ((if nonempty l2 then " " else "") ++ rest).
    rewrite array_body_rows, Heq.
    destruct (nonempty l2);
      (split; [reflexivity | split; [exact Hpre | split; [| split]]]).
    + change (" " ++ rest) with (String " " rest).
      now rewrite (tokens_sep " " rest eq_refl).
    + reflexivity.
    + exact I.
    + exact Hrest.
    + exact Hno.
    + exact Hlast.
Qed.

(** C4. No line of the array body holds more than sixteen entries.  For
    the seventeen bytes [0x00 .. 0x10] the body has two lines: sixteen
    entries, the last one with its comma, and then the entry [0x10] alone,
    without a comma. *)
Theorem rows_hold_at_most_sixteen :
  (forall B : list byte,
      List.Forall (fun ln => (List.length (tokens ln) <= 16)%nat)
                  (lines (array_body B)))
  /\ lines (array_body seventeen_bytes)
     = [ "    0x00, 0x01, 0x02, 0x03, 0x04, 0x05, 0x06, 0x07, 0x08, 0x09, 0x0a, 0x0b, 0x0c, 0x0d, 0x0e, 0x0f, ";
         "    0x10" ]
  /\ List.map (fun ln => List.length (tokens ln))
              (lines (array_body seventeen_bytes))
     = [16%nat; 1%nat]
  /\ List.map (ends_with ", ") (lines (array_body seventeen_bytes))
     = [true; false].
Proof.
  split; [| repeat split; vm_compute; reflexivity].
  intros B. rewrite array_body_rows, lines_render_rows.
  apply row_lines_tokens.
  eapply List.Forall_impl; [| apply rows_ok]. now intros r [_ Hr].
Qed.

(** C5, as the script has it.  Every byte is written as [0x] and its two
    lower-case hexadecimal digits; for the bytes [0x00, 0x41, 0xff] the
    array body is the single line of four blanks and
    [0x00, 0x41, 0xff], then a line feed: three entries, no comma after
    the last. *)
Theorem bytes_as_lowercase_hex :
  (forall b : byte, "0x" ++ format_02x (int_of_byte b) = hex_literal b)
  /\ (forall B : list byte, tokens (array_body B) = List.map hex_literal B)
  /\ array_body three_bytes = "    0x00, 0x41, 0xff" ++ nl
  /\ tokens (array_body three_bytes) = ["0x00"; "0x41"; "0xff"].
Proof.
  split; [exact format_byte |].
  split; [| split; vm_compute; reflexivity].
  intros B. now rewrite array_body_rows, tokens_render_rows, rows_concat.
Qed.

(** C5, as it is worded: the body for [0x00, 0x41, 0xff] is not the bare
    line [0x00, 0x41, 0xff]; the row starts with four blanks. *)
Lemma three_bytes_body_is_indented :
  array_body three_bytes <> "0x00, 0x41, 0xff" ++ nl.
Proof. vm_compute. discriminate. Qed.

(** C9. Every value that is not the last of the sequence is followed by a
    comma and a blank, also when it is the last of its line; so every line
    of the body but the last ends with a comma and a blank. *)
Theorem comma_blank_after_non_final :
  (forall (l1 l2 : list byte) (b c : byte),
      exists pre rest : string,
        array_body (l1 ++ b :: c :: l2)
        = pre ++ hex_literal b ++ ", " ++ rest
        /\ tokens pre = List.map hex_literal l1
        /\ tokens rest = List.map hex_literal (c :: l2))
  /\ (forall B : list byte,
        List.Forall (fun ln => ends_with ", " ln = true)
                    (List.removelast (lines (array_body B)))).
Proof.
  split.
  - intros l1 l2 b c.
    destruct (render_rows_split (rows (l1 ++ b :: c :: l2)) l1 (c :: l2) b)
      as (pre & rest & Heq & Hpre & Hrest & _ & _).
    + eapply List.Forall_impl; [| apply rows_ok]. now intros r [Hr _].
    + apply rows_concat.
    + exists pre, rest. rewrite array_body_rows, Heq. now repeat split.
  - intros B. rewrite array_body_rows, lines_render_rows.
    apply row_lines_ends.
    eapply List.Forall_impl; [| apply rows_ok]. now intros r [Hr _].
Qed.

(** ** The output file *)

(** C8. After every conversion that ends normally the output file starts
    with the comment naming the input path, [#pragma once], a blank line,
    the include, a blank line and the opening of the array, path and
    identifier as given; after the array body come the closing of the
    array, a blank line and the line of the length constant. *)
Theorem header_layout (input_file output_file var_name : string)
  (w w' : world) :
  bmp_to_header input_file output_file var_name w = (Ok tt, w') ->
  exists B : list byte,
    files w !! input_file = Some B
    /\ files w' !! output_file
       = Some (list_byte_of_string
                 ("// Generated from " ++ input_file ++ nl
                  ++ "#pragma once" ++ nl
                  ++ nl
                  ++ "#include <cstdint>" ++ nl
                  ++ nl
                  ++ "inline constexpr unsigned char " ++ var_name
                  ++ "_data[] = {" ++ nl
                  ++ array_body B
                  ++ "};" ++ nl
                  ++ nl
                  ++ "inline constexpr unsigned int " ++ var_name
                  ++ "_len = sizeof(" ++ var_name ++ "_data);" ++ nl)).
Proof.
  intros Hrun.
  destruct (bmp_to_header_inv _ _ _ _ _ Hrun)
    as (B & Hin & Hr & Hw & Hi & Hv).
  rewrite (bmp_to_header_ok _ _ var_name B w Hin Hr Hw Hi Hv) in Hrun.
  injection Hrun as <-. exists B. split; [exact Hin |].
  rewrite files_put_same by reflexivity.
  unfold header_text, len_line. now rewrite !append_assoc.
Qed.

Lemma header_layout_witness :
  exists B : list byte,
    files (world_with three_bytes) !! "icon.bmp" = Some B
    /\ files (snd (bmp_to_header "icon.bmp" "icon.h" "icon"
                     (world_with three_bytes))) !! "icon.h"
       = Some (list_byte_of_string
                 ("// Generated from " ++ "icon.bmp" ++ nl
                  ++ "#pragma once" ++ nl
                  ++ nl
                  ++ "#include <cstdint>" ++ nl
                  ++ nl
                  ++ "inline constexpr unsigned char " ++ "icon"
                  ++ "_data[] = {" ++ nl
                  ++ array_body B
                  ++ "};" ++ nl
                  ++ nl
                  ++ "inline constexpr unsigned int " ++ "icon"
                  ++ "_len = sizeof(" ++ "icon" ++ "_data);" ++ nl)).
Proof.
  apply (header_layout "icon.bmp" "icon.h" "icon" (world_with three_bytes)).
  vm_compute. reflexivity.
Defined.

(** C6. An empty input file converts without failure, given a path and
    an identifier that can be written and hold no line feed: the row loop
    has no index to run over, the array is declared with nothing between
    its opening line and its closing, and the length constant is 0. *)
Theorem empty_input_converts (input_file output_file var_name : string)
  (w : world) :
  files w !! input_file = Some [] ->
  input_file ∉ denied_r w ->
  output_file ∉ denied_w w ->
  encodable input_file = true ->
  encodable var_name = true ->
  no_newline input_file = true ->
  no_newline var_name = true ->
  range 0 (len (@nil byte)) 16 = []
  /\ bmp_to_header input_file output_file var_name w
     = (Ok tt,
        put_file output_file
          (list_byte_of_string
             ("// Generated from " ++ input_file ++ nl
              ++ "#pragma once" ++ nl
              ++ nl
              ++ "#include <cstdint>" ++ nl
              ++ nl
              ++ "inline constexpr unsigned char " ++ var_name
              ++ "_data[] = {" ++ nl
              ++ "};" ++ nl
              ++ nl
              ++ "inline constexpr unsigned int " ++ var_name
              ++ "_len = sizeof(" ++ var_name ++ "_data);" ++ nl)) w)
  /\ array_entries (snd (write_header input_file var_name [] "")) = []
  /\ len_constant (snd (write_header input_file var_name [] "")) = 0.
Proof.
  intros Hin Hr Hw Hi Hv Hni Hnv.
  split; [reflexivity | split; [| split]].
  - rewrite (bmp_to_header_ok _ _ var_name [] w Hin Hr Hw Hi Hv).
    unfold header_text, len_line.
    change (array_body []) with "". rewrite !append_assoc. reflexivity.
  - rewrite (write_header_spec input_file var_name [] Hi Hv). cbn [snd].
    apply (header_text_entries input_file var_name [] Hni Hnv).
  - rewrite (write_header_spec input_file var_name [] Hi Hv). cbn [snd].
    unfold len_constant.
    now rewrite (header_text_sizeof input_file var_name [] Hni Hnv).
Qed.

Lemma empty_input_converts_witness :
  range 0 (len (@nil byte)) 16 = []
  /\ bmp_to_header "icon.bmp" "icon.h" "icon" (world_with [])
     = (Ok tt,
        put_file "icon.h"
          (list_byte_of_string
             ("// Generated from " ++ "icon.bmp" ++ nl
              ++ "#pragma once" ++ nl
              ++ nl
              ++ "#include <cstdint>" ++ nl
              ++ nl
              ++ "inline constexpr unsigned char " ++ "icon"
              ++ "_data[] = {" ++ nl
              ++ "};" ++ nl
              ++ nl
              ++ "inline constexpr unsigned int " ++ "icon"
              ++ "_len = sizeof(" ++ "icon" ++ "_data);" ++ nl))
          (world_with []))
  /\ array_entries (snd (write_header "icon.bmp" "icon" [] "")) = []
  /\ len_constant (snd (write_header "icon.bmp" "icon" [] "")) = 0.
Proof.
  apply (empty_input_converts "icon.bmp" "icon.h" "icon" (world_with []));
    try reflexivity; apply not_elem_of_empty.
Defined.

(** ** Failures *)

(** C10. The input is read before the output is opened: when the input
    cannot be opened, the conversion raises [IOError] and leaves the world
    as it was; no file is created, emptied or changed, the output file
    included. *)
Theorem unreadable_input_leaves_files
  (input_file output_file var_name : string) (w : world) :
  files w !! input_file = None \/ input_file ∈ denied_r w ->
  bmp_to_header input_file output_file var_name w = (Raise IOError, w).
Proof.
  intros Hbad. unfold bmp_to_header, bind, read_bytes.
  destruct (files w !! input_file) as [B|] eqn:Hin; [| reflexivity].
  destruct Hbad as [Hnone | Hdenied]; [discriminate |].
  now rewrite decide_True by exact Hdenied.
Qed.

Lemma unreadable_input_leaves_files_witness :
  bmp_to_header "icon.bmp" "icon.h" "icon" world_without_input
  = (Raise IOError, world_without_input).
Proof.
  apply (unreadable_input_leaves_files "icon.bmp" "icon.h" "icon"
           world_without_input).
  left. reflexivity.
Defined.

(** C7. Started with a number of arguments other than three, the
    program prints the usage line with its own name to standard output and
    exits with status 1; no file is created or changed. *)
Theorem wrong_argument_count_usage (prog : string) (args : list string)
  (w : world) :
  List.length args <> 3%nat ->
  main (prog :: args) w
  = (Raise (SystemExit 1),
     set_stdout
       (stdout w ++ "Usage: " ++ prog ++ " <input.bmp> <output.h> <var_name>"
          ++ nl) w)
  /\ exit_status (fst (main (prog :: args) w)) = 1
  /\ files (snd (main (prog :: args) w)) = files w.
Proof.
  intros Hcount.
  assert (main (prog :: args) w
          = (Raise (SystemExit 1),
             set_stdout
               (stdout w ++ "Usage: " ++ prog
                  ++ " <input.bmp> <output.h> <var_name>" ++ nl) w)) as Hmain.
  { unfold main.
    destruct (Z.eqb_spec (len (prog :: args)) 4) as [Hfour | _].
    - rewrite len_cons in Hfour. unfold len in Hfour. lia.
    - cbn [negb]. unfold bind at 1. unfold bind at 1.
      rewrite argv_get_head. unfold bind, print, sys_exit, raise.
      now rewrite !append_assoc. }
  rewrite Hmain. now repeat split.
Qed.

Lemma wrong_argument_count_usage_witness :
  main ["bmp_to_header.py"; "icon.bmp"; "icon.h"] (world_with three_bytes)
  = (Raise (SystemExit 1),
     set_stdout
       (stdout (world_with three_bytes)
          ++ "Usage: " ++ "bmp_to_header.py"
          ++ " <input.bmp> <output.h> <var_name>" ++ nl)
       (world_with three_bytes))
  /\ exit_status (fst (main ["bmp_to_header.py"; "icon.bmp"; "icon.h"]
                         (world_with three_bytes))) = 1
  /\ files (snd (main ["bmp_to_header.py"; "icon.bmp"; "icon.h"]
                   (world_with three_bytes)))
     = files (world_with three_bytes).
Proof.
  apply (wrong_argument_count_usage "bmp_to_header.py" ["icon.bmp"; "icon.h"]
           (world_with three_bytes)).
  simpl. lia.
Defined.

(** * Further properties of the script *)

(** ** The row loop *)

Section RowLoop.

(** X1. The row loop ends normally for every input and whatever has been
    written before: no index it computes is out of range, and it only
    appends to the text of the file. *)
Theorem write_rows_appends (data : list byte) (buf : string) :
  write_rows data buf = (Ok tt, buf ++ array_body data).
Proof. now rewrite write_rows_spec, array_body_rows. Qed.

Lemma chunks_lengths {A} (fuel : nat) :
  forall xs : list A,
    (List.length xs <= fuel)%nat ->
    List.map (@List.length A) (chunks fuel 16 xs)
    = (List.repeat 16%nat (List.length xs / 16)
       ++ (if (List.length xs mod 16 =? 0)%nat then []
           else [(List.length xs mod 16)%nat]))%list.
Proof.
  induction fuel as [|fuel IH]; intros xs Hfuel.
  - destruct xs; [reflexivity | simpl in Hfuel; lia].
  - destruct xs as [|x xs']; [reflexivity |].
    set (ys := (x :: xs')%list) in *.
    assert (0 < List.length ys)%nat as Hpos by (unfold ys; simpl; lia).
    change (chunks (S fuel) 16 ys)
      with (firstn 16 ys :: chunks fuel 16 (skipn 16 ys)).
    cbn [List.map].
    rewrite IH by (rewrite List.length_skipn; lia).
    rewrite List.length_firstn, List.length_skipn.
    destruct (Nat.le_gt_cases 16 (List.length ys)) as [Hfull | Hshort].
    + assert (List.length ys / 16 = S ((List.length ys - 16) / 16))%nat as Hd.
      { replace (List.length ys) with ((List.length ys - 16) + 1 * 16)%nat at 1
          by lia.
        rewrite Nat.div_add by lia. lia. }
      assert (List.length ys mod 16 = (List.length ys - 16) mod 16)%nat as Hm.
      { replace (List.length ys) with ((List.length ys - 16) + 1 * 16)%nat at 1
          by lia.
        apply Nat.Div0.mod_add. }
      rewrite Hd, Hm. cbn [List.repeat List.app]. f_equal. lia.
    + rewrite (Nat.div_small (List.length ys)), (Nat.mod_small (List.length ys))
        by lia.
      replace (List.length ys - 16)%nat with O by lia.
      change (0 / 16)%nat with O. change (0 mod 16)%nat with O.
      destruct (Nat.eqb_spec (List.length ys) 0) as [Hz | _]; [lia |].
      cbn [List.repeat List.app Nat.eqb]. f_equal. lia.
Qed.

Lemma row_lines_counts (rs : list (list byte)) :
  List.map (fun ln => List.length (tokens ln)) (row_lines rs)
  = List.map (@List.length byte) rs.
Proof.
  induction rs as [|r rs' IH]; [reflexivity |].
  cbn [row_lines List.map].
  now rewrite IH, tokens_indent, tokens_entries, List.length_map.
Qed.

(** X2. The body has one line for every sixteen bytes begun: all lines
    hold sixteen entries, except that a last line holds the remainder when
    the number of bytes is not a multiple of sixteen. *)
Theorem row_entry_counts (B : list byte) :
  List.map (fun ln => List.length (tokens ln)) (lines (array_body B))
  = (List.repeat 16%nat (List.length B / 16)
     ++ (if (List.length B mod 16 =? 0)%nat then []
         else [(List.length B mod 16)%nat]))%list.
Proof.
  rewrite array_body_rows, lines_render_rows, row_lines_counts.
  apply chunks_lengths. lia.
Qed.

End RowLoop.

(** ** The shape and size of the array body *)

Section BodyShape.

Lemma ends_with_app_r (suffix x y : string) :
  ends_with suffix y = true -> ends_with suffix (x ++ y) = true.
Proof.
  intros Hy. induction x as [|c x IH]; [exact Hy |].
  cbn [String.append ends_with]. rewrite IH. apply orb_true_r.
Qed.

Lemma render_rows_ends (rs : list (list byte)) :
  ends_with nl (render_rows rs) = nonempty rs.
Proof.
  induction rs as [|r rs' IH]; [reflexivity |].
  cbn [render_rows nonempty].
  rewrite <- (append_assoc "    "). apply ends_with_app_r.
  destruct rs' as [|r' rs'']; [reflexivity |].
  apply ends_with_app_r. exact IH.
Qed.

Lemma row_lines_indented (rs : list (list byte)) :
  List.Forall (fun r => nonempty r = true) rs ->
  List.Forall (fun ln => String.prefix "    0x" ln = true) (row_lines rs).
Proof.
  induction 1 as [|r rs' Hr _ IH]; [constructor |].
  cbn [row_lines]. constructor; [| exact IH].
  destruct r as [|b r']; [discriminate | reflexivity].
Qed.

(** X3. Every line of the body starts with four blanks and the [0x] of
    its first entry, so no line is empty; and the body ends with a line
    feed exactly when there is at least one byte. *)
Theorem body_lines_shape (B : list byte) :
  List.Forall (fun ln => String.prefix "    0x" ln = true)
              (lines (array_body B))
  /\ ends_with nl (array_body B) = nonempty B.
Proof.
  rewrite array_body_rows, lines_render_rows, render_rows_ends. split.
  - apply row_lines_indented.
    eapply List.Forall_impl; [| apply rows_ok]. now intros r [Hr _].
  - apply chunks_nonempty. lia.
Qed.

Lemma string_length_app (a b : string) :
  String.length (a ++ b) = (String.length a + String.length b)%nat.
Proof. induction a as [|c a IH]; simpl; [reflexivity | now rewrite IH]. Qed.

Lemma entries_length (more : bool) (r : list byte) :
  (String.length (entries more r)
   + (if nonempty r && negb more then 2 else 0)
   = 6 * List.length r)%nat.
Proof.
  induction r as [|b r' IH]; [reflexivity |].
  cbn [entries]. rewrite !string_length_app.
  change (String.length (hex_literal b)) with 4%nat.
  destruct r' as [|c r'']; [destruct more; reflexivity |].
  cbn [nonempty orb andb] in *. change (String.length ", ") with 2%nat.
  cbn [List.length] in *. lia.
Qed.

Lemma render_rows_length (rs : list (list byte)) :
  List.Forall (fun r => nonempty r = true) rs ->
  (String.length (render_rows rs) + (if nonempty rs then 2 else 0)
   = 5 * List.length rs + 6 * List.length (List.concat rs))%nat.
Proof.
  induction 1 as [|r rs' Hr _ IH]; [reflexivity |].
  cbn [render_rows List.concat List.length nonempty].
  rewrite !string_length_app, List.length_app.
  change (String.length "    ") with 4%nat.
  change (String.length nl) with 1%nat.
  pose proof (entries_length (nonempty rs') r) as Hrow. rewrite Hr in Hrow.
  destruct rs' as [|r' rs'']; cbn [nonempty negb andb] in *;
    cbn [render_rows String.length List.length List.concat] in *; lia.
Qed.

Lemma ceil_sixteen (n : nat) :
  (n / 16 + (if n mod 16 =? 0 then 0 else 1) = (n + 15) / 16)%nat.
Proof.
  pose proof (Nat.div_mod_eq n 16) as Hn.
  pose proof (Nat.mod_upper_bound n 16 ltac:(lia)) as Hr.
  destruct (Nat.eqb_spec (n mod 16) 0) as [Hz | Hnz].
  - apply (Nat.div_unique (n + 15) 16 _ 15); lia.
  - apply (Nat.div_unique (n + 15) 16 _ (n mod 16 - 1)); lia.
Qed.

Lemma rows_count (data : list byte) :
  List.length (rows data) = ((List.length data + 15) / 16)%nat.
Proof.
  rewrite <- ceil_sixteen, <- (List.length_map (@List.length byte)).
  unfold rows. rewrite chunks_lengths by lia.
  rewrite List.length_app, List.repeat_length.
  now destruct (List.length data mod 16 =? 0)%nat.
Qed.

(** X4. The size of the body: six characters per byte, five more per line
    for the indentation and the line feed, less the comma and blank that
    the last byte does not get; there are as many lines as sixteens of
    bytes, a last incomplete one counted. *)
Theorem body_length (B : list byte) :
  List.length (lines (array_body B)) = ((List.length B + 15) / 16)%nat
  /\ String.length (array_body B)
     = (6 * List.length B + 5 * ((List.length B + 15) / 16)
        - (if nonempty B then 2 else 0))%nat.
Proof.
  rewrite array_body_rows, lines_render_rows.
  assert (List.length (row_lines (rows B)) = List.length (rows B)) as ->.
  { rewrite <- (List.length_map (fun ln => List.length (tokens ln))).
    now rewrite row_lines_counts, List.length_map. }
  split; [apply rows_count |].
  pose proof (render_rows_length (rows B)) as Hlen.
  assert (nonempty (rows B) = nonempty B) as Hrows
    by (unfold rows; apply chunks_nonempty; lia).
  rewrite rows_concat, rows_count, Hrows in Hlen.
  assert (List.Forall (fun r => nonempty r = true) (rows B)) as Hne.
  { eapply List.Forall_impl; [| apply rows_ok]. now intros r [Hr _]. }
  specialize (Hlen Hne). destruct B; cbn [nonempty] in *; lia.
Qed.

Lemma string_forall_app (p : ascii -> bool) (a b : string) :
  string_forall p (a ++ b) = string_forall p a && string_forall p b.
Proof.
  induction a as [|c a IH]; simpl; [reflexivity |].
  now rewrite IH, andb_assoc.
Qed.

Lemma body_char_literal (b : byte) :
  string_forall body_char (hex_literal b) = true.
Proof. destruct b; reflexivity. Qed.

Lemma body_char_entries (more : bool) (r : list byte) :
  string_forall body_char (entries more r) = true.
Proof.
  induction r as [|b r' IH]; [reflexivity |].
  cbn [entries]. rewrite !string_forall_app, body_char_literal, IH.
  now destruct (nonempty r' || more).
Qed.

(** X5. The body is made of lower-case hexadecimal digits, the letter
    [x], commas, blanks and line feeds only; no upper-case digit, tab or
    other character is ever written. *)
Theorem body_alphabet (B : list byte) :
  string_forall body_char (array_body B) = true.
Proof.
  rewrite array_body_rows.
  induction (rows B) as [|r rs' IH]; [reflexivity |].
  cbn [render_rows].
  now rewrite !string_forall_app, body_char_entries, IH.
Qed.

Lemma decode_array_body (B : list byte) : decode_body (array_body B) = Some B.
Proof.
  unfold decode_body.
  now rewrite array_body_rows, tokens_render_rows, rows_concat, decode_literals.
Qed.

(** X6. Different inputs give different bodies: the body determines the
    bytes it was made from. *)
Theorem array_body_injective (B1 B2 : list byte) :
  array_body B1 = array_body B2 -> B1 = B2.
Proof.
  intros Heq. pose proof (decode_array_body B1) as H1.
  rewrite Heq, decode_array_body in H1. now injection H1.
Qed.

Lemma array_body_injective_witness : three_bytes = [x00; x41; xff].
Proof.
  apply (array_body_injective three_bytes [x00; x41; xff]). reflexivity.
Defined.

End BodyShape.

(** ** Outcomes of the conversion *)

Section Outcomes.

Lemma bmp_to_header_fail (input_file output_file var_name : string)
  (w : world) :
  files w !! input_file = None
  \/ input_file ∈ denied_r w
  \/ output_file ∈ denied_w w ->
  bmp_to_header input_file output_file var_name w = (Raise IOError, w).
Proof.
  intros Hbad. unfold bmp_to_header, bind, read_bytes, with_open_w.
  destruct (files w !! input_file) as [B|]; [| reflexivity].
  destruct (decide (input_file ∈ denied_r w)); [reflexivity |].
  destruct (decide (output_file ∈ denied_w w)); [reflexivity |].
  destruct Hbad as [Hnone | [Hr | Hw]]; [discriminate | contradiction ..].
Qed.

Lemma bmp_to_header_cases (input_file output_file : string) (w : world) :
  (exists B : list byte,
      files w !! input_file = Some B
      /\ (input_file ∉ denied_r w)
      /\ (output_file ∉ denied_w w))
  \/ (files w !! input_file = None
      \/ input_file ∈ denied_r w
      \/ output_file ∈ denied_w w).
Proof.
  destruct (files w !! input_file) as [B|]; [| right; now left].
  destruct (decide (input_file ∈ denied_r w)); [right; right; now left |].
  destruct (decide (output_file ∈ denied_w w)); [right; right; now right |].
  left. now exists B.
Qed.

(** X7. When the output path cannot be opened for writing, the conversion
    raises [IOError] and changes nothing, whether or not the input had
    been read. *)
Theorem unwritable_output_raises (input_file output_file var_name : string)
  (w : world) :
  output_file ∈ denied_w w ->
  bmp_to_header input_file output_file var_name w = (Raise IOError, w).
Proof. intros Hw. apply bmp_to_header_fail. now right; right. Qed.

Lemma unwritable_output_raises_witness :
  bmp_to_header "icon.bmp" "icon.h" "icon" world_output_denied
  = (Raise IOError, world_output_denied).
Proof.
  apply (unwritable_output_raises "icon.bmp" "icon.h" "icon"
           world_output_denied).
  vm_compute. reflexivity.
Defined.


(** X9. The conversion touches one file only: a path that names another
    file than the output path shows what it showed before, nothing is
    printed and the permissions are left alone, whether the conversion
    ends normally or raises.  Two spellings of one file name the same
    file. *)
Theorem conversion_frame (input_file output_file var_name path : string)
  (w : world) :
  resolve w path <> resolve w output_file ->
  files (snd (bmp_to_header input_file output_file var_name w)) !! path
  = files w !! path
  /\ stdout (snd (bmp_to_header input_file output_file var_name w))
     = stdout w
  /\ denied_r (snd (bmp_to_header input_file output_file var_name w))
     = denied_r w
  /\ denied_w (snd (bmp_to_header input_file output_file var_name w))
     = denied_w w.
Proof.
  intros Hpath.
  destruct (bmp_to_header_cases input_file output_file w)
    as [(B & Hin & Hr & Hw) | Hbad].
  - rewrite (bmp_to_header_run _ _ var_name B w Hin Hr Hw). cbn [snd].
    rewrite files_put_other by congruence. now repeat split.
  - rewrite (bmp_to_header_fail _ _ var_name w Hbad). now repeat split.
Qed.

Lemma conversion_frame_witness :
  files (snd (bmp_to_header "icon.bmp" "icon.h" "icon"
                (world_with three_bytes))) !! "./icon.bmp"
  = files (world_with three_bytes) !! "./icon.bmp"
  /\ stdout (snd (bmp_to_header "icon.bmp" "icon.h" "icon"
                    (world_with three_bytes)))
     = stdout (world_with three_bytes)
  /\ denied_r (snd (bmp_to_header "icon.bmp" "icon.h" "icon"
                      (world_with three_bytes)))
     = denied_r (world_with three_bytes)
  /\ denied_w (snd (bmp_to_header "icon.bmp" "icon.h" "icon"
                      (world_with three_bytes)))
     = denied_w (world_with three_bytes).
Proof.
  apply (conversion_frame "icon.bmp" "icon.h" "icon" "./icon.bmp"
           (world_with three_bytes)).
  discriminate.
Defined.

(** X10. Converting a second time gives the result of the first: the
    output file is written anew, not added to, as long as the output path
    does not name the input file. *)
Theorem conversion_idempotent (input_file output_file var_name : string)
  (w : world) :
  resolve w input_file <> resolve w output_file ->
  bmp_to_header input_file output_file var_name
    (snd (bmp_to_header input_file output_file var_name w))
  = bmp_to_header input_file output_file var_name w.
Proof.
  intros Hdiff.
  destruct (bmp_to_header_cases input_file output_file w)
    as [(B & Hin & Hr & Hw) | Hbad].
  - rewrite (bmp_to_header_run _ _ var_name B w Hin Hr Hw). cbn [snd].
    rewrite (bmp_to_header_run _ _ var_name B).
    + now rewrite put_file_twice.
    + rewrite files_put_other by congruence. exact Hin.
    + exact Hr.
    + exact Hw.
  - rewrite (bmp_to_header_fail _ _ var_name w Hbad). cbn [snd].
    apply bmp_to_header_fail, Hbad.
Qed.

Lemma conversion_idempotent_witness :
  bmp_to_header "icon.bmp" "icon.h" "icon"
    (snd (bmp_to_header "icon.bmp" "icon.h" "icon" (world_with three_bytes)))
  = bmp_to_header "icon.bmp" "icon.h" "icon" (world_with three_bytes).
Proof.
  apply (conversion_idempotent "icon.bmp" "icon.h" "icon"
           (world_with three_bytes)).
  discriminate.
Defined.

(** X11. A file can be converted onto itself, under any spelling of its
    path: the input is read to its end before the output is opened, so
    with a path and an identifier that can be encoded the conversion ends
    normally and the file then holds the header of the bytes it held. *)
Theorem conversion_in_place (input_file output_file var_name : string)
  (B : list byte) (w : world) :
  files w !! input_file = Some B ->
  input_file ∉ denied_r w ->
  output_file ∉ denied_w w ->
  resolve w output_file = resolve w input_file ->
  encodable input_file = true ->
  encodable var_name = true ->
  fst (bmp_to_header input_file output_file var_name w) = Ok tt
  /\ files (snd (bmp_to_header input_file output_file var_name w))
       !! input_file
     = Some (list_byte_of_string
             ("// Generated from " ++ input_file ++ nl
              ++ "#pragma once" ++ nl
              ++ nl
              ++ "#include <cstdint>" ++ nl
              ++ nl
              ++ "inline constexpr unsigned char " ++ var_name
              ++ "_data[] = {" ++ nl
              ++ array_body B
              ++ "};" ++ nl
              ++ nl
              ++ "inline constexpr unsigned int " ++ var_name
              ++ "_len = sizeof(" ++ var_name ++ "_data);" ++ nl)).
Proof.
  intros Hin Hr Hw Hsame Hi Hv.
  rewrite (bmp_to_header_ok _ _ var_name B w Hin Hr Hw Hi Hv). cbn [fst snd].
  split; [reflexivity |].
  rewrite files_put_same by exact Hsame.
  unfold header_text, len_line. now rewrite !append_assoc.
Qed.

Lemma conversion_in_place_witness :
  fst (bmp_to_header "icon.bmp" "./icon.bmp" "icon" (world_with three_bytes))
  = Ok tt
  /\ files (snd (bmp_to_header "icon.bmp" "./icon.bmp" "icon"
                   (world_with three_bytes))) !! "icon.bmp"
     = Some (list_byte_of_string
             ("// Generated from " ++ "icon.bmp" ++ nl
              ++ "#pragma once" ++ nl
              ++ nl
              ++ "#include <cstdint>" ++ nl
              ++ nl
              ++ "inline constexpr unsigned char " ++ "icon"
              ++ "_data[] = {" ++ nl
              ++ array_body three_bytes
              ++ "};" ++ nl
              ++ nl
              ++ "inline constexpr unsigned int " ++ "icon"
              ++ "_len = sizeof(" ++ "icon" ++ "_data);" ++ nl)).
Proof.
  apply (conversion_in_place "icon.bmp" "./icon.bmp" "icon" three_bytes
           (world_with three_bytes));
    try reflexivity; apply not_elem_of_empty.
Defined.

(** X16. When the input path cannot be encoded, the first write of the
    block raises [UnicodeEncodeError]: the output file has been created or
    emptied by then and is left with nothing in it. *)
Theorem unencodable_path_empties_output
  (input_file output_file var_name : string) (B : list byte) (w : world) :
  files w !! input_file = Some B ->
  input_file ∉ denied_r w ->
  output_file ∉ denied_w w ->
  encodable input_file = false ->
  bmp_to_header input_file output_file var_name w
  = (Raise UnicodeEncodeError, put_file output_file [] w)
  /\ files (snd (bmp_to_header input_file output_file var_name w))
       !! output_file
     = Some [].
Proof.
  intros Hin Hr Hw Hi.
  rewrite (bmp_to_header_run _ _ var_name B w Hin Hr Hw).
  rewrite write_header_run, Hi. cbn [fst snd].
  split; [reflexivity |]. now apply files_put_same.
Qed.

Lemma unencodable_path_empties_output_witness :
  bmp_to_header bad_name "icon.h" "icon" world_with_bad_name
  = (Raise UnicodeEncodeError, put_file "icon.h" [] world_with_bad_name)
  /\ files (snd (bmp_to_header bad_name "icon.h" "icon" world_with_bad_name))
       !! "icon.h"
     = Some [].
Proof.
  apply (unencodable_path_empties_output bad_name "icon.h" "icon" three_bytes
           world_with_bad_name);
    try reflexivity; apply not_elem_of_empty.
Defined.

(** X17. When the input path can be encoded and the identifier cannot,
    the write of the array opening raises [UnicodeEncodeError]: the output
    file is left with the comment, [#pragma once] and the include, and
    with no array. *)
Theorem unencodable_identifier_partial_header
  (input_file output_file var_name : string) (B : list byte) (w : world) :
  files w !! input_file = Some B ->
  input_file ∉ denied_r w ->
  output_file ∉ denied_w w ->
  encodable input_file = true ->
  encodable var_name = false ->
  bmp_to_header input_file output_file var_name w
  = (Raise UnicodeEncodeError,
     put_file output_file
       (list_byte_of_string
          ("// Generated from " ++ input_file ++ nl
          ++ "#pragma once" ++ nl
          ++ nl
          ++ "#include <cstdint>" ++ nl
          ++ nl)) w).
Proof.
  intros Hin Hr Hw Hi Hv.
  rewrite (bmp_to_header_run _ _ var_name B w Hin Hr Hw).
  rewrite write_header_run, Hi, Hv. reflexivity.
Qed.

(** For the path [icon.bmp] these are 61 bytes. *)
Example partial_header_size :
  List.length (list_byte_of_string (header_start "icon.bmp")) = 61%nat.
Proof. reflexivity. Qed.

Lemma unencodable_identifier_partial_header_witness :
  bmp_to_header "icon.bmp" "icon.h" bad_name (world_with three_bytes)
  = (Raise UnicodeEncodeError,
     put_file "icon.h"
       (list_byte_of_string
          ("// Generated from " ++ "icon.bmp" ++ nl
           ++ "#pragma once" ++ nl
           ++ nl
           ++ "#include <cstdint>" ++ nl
           ++ nl)) (world_with three_bytes)).
Proof.
  apply (unencodable_identifier_partial_header "icon.bmp" "icon.h" bad_name
           three_bytes (world_with three_bytes));
    try reflexivity; apply not_elem_of_empty.
Defined.

End Outcomes.

(** ** The program as a whole *)

Section Program.

Lemma argv_get_four (a0 a1 a2 a3 : string) (w : world) :
  argv_get [a0; a1; a2; a3] 1 w = (Ok a1, w)
  /\ argv_get [a0; a1; a2; a3] 2 w = (Ok a2, w)
  /\ argv_get [a0; a1; a2; a3] 3 w = (Ok a3, w).
Proof. now repeat split. Qed.

(** With three arguments the program runs the conversion; only when the
    conversion ends normally does it go on to print. *)
Lemma main_runs_conversion (prog input_file output_file var_name : string)
  (w : world) :
  main [prog; input_file; output_file; var_name] w
  = match bmp_to_header input_file output_file var_name w with
    | (Ok _, w') =>
        (Ok tt, set_stdout (stdout w' ++ "Generated " ++ output_file ++ nl) w')
    | (Raise e, w') => (Raise e, w')
    end.
Proof.
  unfold main. change (len [prog; input_file; output_file; var_name] =? 4)
    with true.
  cbn [negb]. unfold bind at 1. unfold pass, ret.
  destruct (argv_get_four prog input_file output_file var_name w)
    as (H1 & H2 & H3).
  unfold bind at 1. rewrite H1. unfold bind at 1. rewrite H2.
  unfold bind at 1. rewrite H3. unfold bind at 1.
  destruct (bmp_to_header input_file output_file var_name w) as [[u|e] w'];
    [| reflexivity].
  unfold bind.
  destruct (argv_get_four prog input_file output_file var_name w')
    as (_ & -> & _).
  unfold print. now rewrite !append_assoc.
Qed.

(** X12. Started with three arguments on a readable input and a writable
    output, with paths and an identifier that can be encoded, the program
    converts the file, then prints [Generated <output>] and ends with
    status 0; it prints nothing else.  (The output path is asked to be
    encodable so that the line can be printed under any error handler of
    standard output.) *)
Theorem main_converts_and_reports
  (prog input_file output_file var_name : string) (B : list byte)
  (w : world) :
  files w !! input_file = Some B ->
  input_file ∉ denied_r w ->
  output_file ∉ denied_w w ->
  encodable input_file = true ->
  encodable output_file = true ->
  encodable var_name = true ->
  main [prog; input_file; output_file; var_name] w
  = (Ok tt,
     set_stdout (stdout w ++ "Generated " ++ output_file ++ nl)
       (put_file output_file
          (list_byte_of_string
             ("// Generated from " ++ input_file ++ nl
              ++ "#pragma once" ++ nl
              ++ nl
              ++ "#include <cstdint>" ++ nl
              ++ nl
              ++ "inline constexpr unsigned char " ++ var_name
              ++ "_data[] = {" ++ nl
              ++ array_body B
              ++ "};" ++ nl
              ++ nl
              ++ "inline constexpr unsigned int " ++ var_name
              ++ "_len = sizeof(" ++ var_name ++ "_data);" ++ nl)) w))
  /\ exit_status (fst (main [prog; input_file; output_file; var_name] w)) = 0.
Proof.
  intros Hin Hr Hw Hi _ Hv.
  rewrite main_runs_conversion.
  rewrite (bmp_to_header_ok _ _ var_name B w Hin Hr Hw Hi Hv).
  cbn [fst exit_status put_file stdout]. split; [| reflexivity].
  unfold header_text, len_line. now rewrite !append_assoc.
Qed.

Lemma main_converts_and_reports_witness :
  main ["bmp_to_header.py"; "icon.bmp"; "icon.h"; "icon"]
    (world_with three_bytes)
  = (Ok tt,
     set_stdout (stdout (world_with three_bytes)
                   ++ "Generated " ++ "icon.h" ++ nl)
       (put_file "icon.h"
          (list_byte_of_string
             ("// Generated from " ++ "icon.bmp" ++ nl
              ++ "#pragma once" ++ nl
              ++ nl
              ++ "#include <cstdint>" ++ nl
              ++ nl
              ++ "inline constexpr unsigned char " ++ "icon"
              ++ "_data[] = {" ++ nl
              ++ array_body three_bytes
              ++ "};" ++ nl
              ++ nl
              ++ "inline constexpr unsigned int " ++ "icon"
              ++ "_len = sizeof(" ++ "icon" ++ "_data);" ++ nl))
          (world_with three_bytes)))
  /\ exit_status (fst (main ["bmp_to_header.py"; "icon.bmp"; "icon.h"; "icon"]
                         (world_with three_bytes))) = 0.
Proof.
  apply (main_converts_and_reports "bmp_to_header.py" "icon.bmp" "icon.h"
           "icon" three_bytes (world_with three_bytes));
    try reflexivity; apply not_elem_of_empty.
Defined.

(** X13. Started with three arguments, the program does not catch a
    failure to open the input or the output: the [IOError] ends it with
    status 1, no usage line and no [Generated] line is printed, and no
    file is changed. *)
Theorem main_io_failure (prog input_file output_file var_name : string)
  (w : world) :
  files w !! input_file = None
  \/ input_file ∈ denied_r w
  \/ output_file ∈ denied_w w ->
  main [prog; input_file; output_file; var_name] w = (Raise IOError, w)
  /\ exit_status (fst (main [prog; input_file; output_file; var_name] w)) = 1.
Proof.
  intros Hbad.
  assert (main [prog; input_file; output_file; var_name] w
          = (Raise IOError, w)) as Hmain.
  { rewrite main_runs_conversion.
    now rewrite (bmp_to_header_fail _ _ var_name w Hbad). }
  rewrite Hmain. now split.
Qed.

Lemma main_io_failure_witness :
  main ["bmp_to_header.py"; "icon.bmp"; "icon.h"; "icon"] world_without_input
  = (Raise IOError, world_without_input)
  /\ exit_status (fst (main ["bmp_to_header.py"; "icon.bmp"; "icon.h"; "icon"]
                         world_without_input)) = 1.
Proof.
  apply (main_io_failure "bmp_to_header.py" "icon.bmp" "icon.h" "icon"
           world_without_input).
  left. reflexivity.
Defined.

(** X18. Started with three arguments on a readable input and a writable
    output, with a path or an identifier that cannot be encoded, the
    program ends with status 1 on the [UnicodeEncodeError] and prints
    nothing, no [Generated] line either. *)
Theorem main_encode_failure (prog input_file output_file var_name : string)
  (B : list byte) (w : world) :
  files w !! input_file = Some B ->
  input_file ∉ denied_r w ->
  output_file ∉ denied_w w ->
  encodable input_file && encodable var_name = false ->
  fst (main [prog; input_file; output_file; var_name] w)
  = Raise UnicodeEncodeError
  /\ exit_status (fst (main [prog; input_file; output_file; var_name] w)) = 1
  /\ stdout (snd (main [prog; input_file; output_file; var_name] w))
     = stdout w.
Proof.
  intros Hin Hr Hw Hbad.
  rewrite main_runs_conversion.
  rewrite (bmp_to_header_run _ _ var_name B w Hin Hr Hw), write_header_run.
  destruct (encodable input_file), (encodable var_name);
    try discriminate; now repeat split.
Qed.

Lemma main_encode_failure_witness :
  fst (main ["bmp_to_header.py"; "icon.bmp"; "icon.h"; bad_name]
         (world_with three_bytes))
  = Raise UnicodeEncodeError
  /\ exit_status (fst (main ["bmp_to_header.py"; "icon.bmp"; "icon.h"; bad_name]
                         (world_with three_bytes))) = 1
  /\ stdout (snd (main ["bmp_to_header.py"; "icon.bmp"; "icon.h"; bad_name]
                    (world_with three_bytes)))
     = stdout (world_with three_bytes).
Proof.
  apply (main_encode_failure "bmp_to_header.py" "icon.bmp" "icon.h" bad_name
           three_bytes (world_with three_bytes));
    try reflexivity; apply not_elem_of_empty.
Defined.

End Program.

(** ** The header as lines *)

Section HeaderLines.

(** X14. When the input path and the identifier can be encoded and hold
    no line feed, the header is laid out in lines: six lines that open
    it, the comment and the array opening with path and identifier in
    them, the rows of the body, and three lines that close it. *)
Theorem header_lines (input_file var_name : string) (B : list byte) :
  encodable input_file = true ->
  encodable var_name = true ->
  no_newline input_file = true ->
  no_newline var_name = true ->
  lines (snd (write_header input_file var_name B ""))
  = ([ ("// Generated from " ++ input_file)%string;
       "#pragma once";
       "";
       "#include <cstdint>";
       "";
       ("inline constexpr unsigned char " ++ var_name ++ "_data[] = {")%string ]
     ++ lines (array_body B)
     ++ [ "};";
          "";
          ("inline constexpr unsigned int " ++ var_name ++ "_len = sizeof("
             ++ var_name ++ "_data);")%string ])%list.
Proof.
  intros Hi Hv Hin Hvar.
  rewrite (write_header_spec input_file var_name B Hi Hv). cbn [snd].
  apply (header_text_lines input_file var_name B Hin Hvar).
Qed.

(** With an identifier that cannot be encoded the text stops before the
    array: the condition on the encoding is needed. *)
Example header_stops_at_bad_identifier :
  no_newline bad_name = true
  /\ lines (snd (write_header "icon.bmp" bad_name three_bytes ""))
     = ["// Generated from icon.bmp"; "#pragma once"; "";
        "#include <cstdint>"; ""].
Proof. split; reflexivity. Qed.

Lemma header_lines_witness :
  lines (snd (write_header "icon.bmp" "icon" three_bytes ""))
  = ([ ("// Generated from " ++ "icon.bmp")%string;
       "#pragma once";
       "";
       "#include <cstdint>";
       "";
       ("inline constexpr unsigned char " ++ "icon" ++ "_data[] = {")%string ]
     ++ lines (array_body three_bytes)
     ++ [ "};";
          "";
          ("inline constexpr unsigned int " ++ "icon" ++ "_len = sizeof("
             ++ "icon" ++ "_data);")%string ])%list.
Proof.
  apply (header_lines "icon.bmp" "icon" three_bytes); reflexivity.
Defined.

(** X15. A header can be read back: with an input path and an identifier
    that can be encoded and hold no line feed, dropping the six opening
    and three closing lines of the written text and decoding the entries
    of the lines between gives the bytes that were converted. *)
Theorem header_round_trip (input_file var_name : string) (B : list byte) :
  encodable input_file = true ->
  encodable var_name = true ->
  no_newline input_file = true ->
  no_newline var_name = true ->
  parse_header (snd (write_header input_file var_name B "")) = Some B.
Proof.
  intros Hi Hv Hin Hvar.
  rewrite (write_header_spec input_file var_name B Hi Hv). cbn [snd].
  unfold parse_header.
  change (List.concat (List.map tokens (header_rows ?t)))
    with (array_entries t).
  fold (array_entries (header_text input_file var_name (array_body B))).
  rewrite (header_text_entries input_file var_name B Hin Hvar).
  apply decode_literals.
Qed.

Lemma header_round_trip_witness :
  parse_header (snd (write_header "icon.bmp" "icon" three_bytes ""))
  = Some three_bytes.
Proof.
  apply (header_round_trip "icon.bmp" "icon" three_bytes); reflexivity.
Defined.

End HeaderLines.
